(** * tscriptify: the driver generator of typescriptify-golang-structs

    A shallow embedding of [tscriptify/main.go] and the properties of its
    scanner, alias map, reference filter, template and orchestration.

    Go strings are byte sequences; they are modelled by [string], whose
    characters are the 256 values of [ascii].  The Go standard library and
    the operating system are not part of the program: the pure library
    functions the program calls are modelled from their documentation, and
    everything that depends on the machine (the file system, the parser's
    verdict on a file, the child process) is a field of [Host]. *)

From Stdlib Require Import Ascii String ZArith List Lia.
From stdpp Require Import base strings list sorting gmap pretty.

Local Open Scope string_scope.
Local Open Scope list_scope.

(** ** Outcomes of Go code *)

(** A Go call returns a value, returns a non-nil [error] (kept as its
    [Error()] text) or panics. *)
Inductive outcome (A : Type) : Type :=
| Value (a : A)
| Error (err : string)
| Panic (msg : string).

Arguments Value {A} a.
Arguments Error {A} err.
Arguments Panic {A} msg.

(** Sequencing stops at the first error or panic. *)
Global Instance outcome_bind : MBind outcome := fun A B k m =>
  match m with
  | Value a => k a
  | Error e => Error e
  | Panic msg => Panic msg
  end.

(** ** Characters and strings of the Go library *)

Definition byte_val (c : ascii) : N := N_of_ascii c.

Definition in_range (lo hi : N) (c : ascii) : bool :=
  ((lo <=? byte_val c) && (byte_val c <=? hi))%N.

(** [unicode.IsUpper(rune(b))] for a byte [b]: the rune is at most U+00FF,
    and the upper-case letters (category Lu) of that range are A-Z,
    U+00C0-U+00D6 and U+00D8-U+00DE. *)
Definition IsUpper (b : ascii) : bool :=
  in_range 65 90 b || in_range 192 214 b || in_range 216 222 b.

(** [strings.HasPrefix]: [len(s) >= len(prefix) && s[:len(prefix)] == prefix]. *)
Definition HasPrefix (s pre : string) : bool :=
  (String.length pre <=? String.length s)%nat
  && String.eqb (substring 0 (String.length pre) s) pre.

(** [strings.HasSuffix]: [len(s) >= len(suffix) && s[len(s)-len(suffix):] == suffix]. *)
Definition HasSuffix (s suf : string) : bool :=
  (String.length suf <=? String.length s)%nat
  && String.eqb
       (substring (String.length s - String.length suf) (String.length suf) s) suf.

(** [strings.Contains]: [substr] occurs at some offset of [s]. *)
Fixpoint Contains (s substr : string) : bool :=
  HasPrefix s substr
  || match s with
     | EmptyString => false
     | String _ tl => Contains tl substr
     end.

(** The encodings of the white-space characters of Unicode
    ([unicode.IsSpace]): one byte for U+0009-U+000D and U+0020, two bytes
    for U+0085 and U+00A0, three bytes for U+1680, U+2000-U+200A, U+2028,
    U+2029, U+202F, U+205F and U+3000. *)
Definition space1 (a : ascii) : bool :=
  in_range 9 13 a || in_range 32 32 a.

Definition space2 (a b : ascii) : bool :=
  in_range 194 194 a && (in_range 133 133 b || in_range 160 160 b).

Definition space3 (a b c : ascii) : bool :=
  (in_range 225 225 a && in_range 154 154 b && in_range 128 128 c)
  || (in_range 226 226 a && in_range 128 128 b
      && (in_range 128 138 c || in_range 168 169 c || in_range 175 175 c))
  || (in_range 226 226 a && in_range 129 129 b && in_range 159 159 c)
  || (in_range 227 227 a && in_range 128 128 b && in_range 128 128 c).

(** Leading white space removed: the string is decoded from its start,
    one character at a time, as long as the character is white space. *)
Fixpoint TrimLeftSpace (s : string) : string :=
  match s with
  | EmptyString => EmptyString
  | String a s1 =>
      if space1 a then TrimLeftSpace s1 else
      match s1 with
      | EmptyString => s
      | String b s2 =>
          if space2 a b then TrimLeftSpace s2 else
          match s2 with
          | EmptyString => s
          | String c s3 => if space3 a b c then TrimLeftSpace s3 else s
          end
      end
  end.

(** The same from the end, on the reversed string: its bytes come last
    byte first. *)
Fixpoint trim_reversed (r : string) : string :=
  match r with
  | EmptyString => EmptyString
  | String a r1 =>
      if space1 a then trim_reversed r1 else
      match r1 with
      | EmptyString => r
      | String b r2 =>
          if space2 b a then trim_reversed r2 else
          match r2 with
          | EmptyString => r
          | String c r3 => if space3 c b a then trim_reversed r3 else r
          end
      end
  end.

Definition TrimRightSpace (s : string) : string :=
  String.rev (trim_reversed (String.rev s)).

(** [strings.TrimSpace]: all leading and trailing white space removed, as
    defined by Unicode. *)
Definition TrimSpace (s : string) : string :=
  TrimRightSpace (TrimLeftSpace s).

(** [strings.Join]. *)
Definition Join (elems : list string) (sep : string) : string :=
  String.concat sep elems.

#[local] Set Warnings "-register-all,-clear-no-such-hyp".

(** ** The syntax tree, as far as the visitor can tell nodes apart

    [Visit] switches on three cases: [*ast.Ident], [*ast.StructType] and
    every other node type.  [ast.Walk] descends into the children of a node
    in the order of its fields, which is the order of the source text: an
    identifier is a leaf, a struct type has one child (its field list), and
    every other node carries the list of children [ast.Walk] visits. *)
Inductive Node : Type :=
| Ident (Name : string)
| StructType (Fields : Node)
| OtherNode (children : list Node).

Fixpoint Node_rect' (P : Node -> Type) (Q : list Node -> Type)
    (HI : forall n, P (Ident n))
    (HS : forall f, P f -> P (StructType f))
    (HO : forall ch, Q ch -> P (OtherNode ch))
    (HN : Q [])
    (HC : forall c ch, P c -> Q ch -> Q (c :: ch))
    (n : Node) {struct n} : P n :=
  match n with
  | Ident s => HI s
  | StructType f => HS f (Node_rect' P Q HI HS HO HN HC f)
  | OtherNode ch =>
      HO ch ((fix go (l : list Node) : Q l :=
                match l with
                | [] => HN
                | c :: r => HC c r (Node_rect' P Q HI HS HO HN HC c) (go r)
                end) ch)
  end.

(** ** The scanner: [AVisitor], [Visit], [ast.Walk], [GetGolangFileStructs] *)

Record AVisitor : Type := mkAVisitor {
  structNameCandidate : string;
  structs : list string
}.

(** [s[0]]: the first byte of a string; indexing the empty string panics. *)
Definition index0 (s : string) : outcome ascii :=
  match s with
  | String c _ => Value c
  | EmptyString => Panic "runtime error: index out of range [0] with length 0"
  end.

(** [func (v *AVisitor) Visit(node ast.Node) ast.Visitor]; [None] is the
    [nil] node [ast.Walk] passes after the children of a node.  The visitor
    returned is always the receiver, so only its new state is kept. *)
Definition Visit (v : AVisitor) (node : option Node) : outcome AVisitor :=
  match node with
  | None => Value v
  | Some (Ident Name) =>
      c ← index0 Name;
      if IsUpper c
      then Value (mkAVisitor Name (structs v))
      else Value (mkAVisitor "" (structs v))
  | Some (StructType _) =>
      if (0 <? String.length (structNameCandidate v))%nat
      then
        c ← index0 (structNameCandidate v);
        if IsUpper c
        then Value (mkAVisitor "" (structs v ++ [structNameCandidate v]))
        else Value (mkAVisitor "" (structs v))
      else Value v
  | Some (OtherNode _) => Value (mkAVisitor "" (structs v))
  end.

(** [ast.Walk(v, node)]: visit the node, walk its children in order, then
    visit [nil]. *)
Fixpoint Walk (node : Node) (v : AVisitor) {struct node} : outcome AVisitor :=
  v1 ← Visit v (Some node);
  v2 ← match node with
       | Ident _ => Value v1
       | StructType Fields => Walk Fields v1
       | OtherNode children =>
           (fix walkList (l : list Node) (w : AVisitor) : outcome AVisitor :=
              match l with
              | [] => Value w
              | c :: r => w' ← Walk c w; walkList r w'
              end) children v1
       end;
  Visit v2 None.

(** The loop over the children of a node inside [ast.Walk]. *)
Definition walkList : list Node -> AVisitor -> outcome AVisitor :=
  fix walkList (l : list Node) (w : AVisitor) : outcome AVisitor :=
    match l with
    | [] => Value w
    | c :: r => w' ← Walk c w; walkList r w'
    end.

(** ** The machine the program runs on *)

(** What the program obtains from the operating system, and the library
    functions whose result depends on the platform or on tables that are
    not modelled here.  Errors are kept as their text. *)
Record Host : Type := mkHost {
  (** [filepath.Separator] *)
  Separator : ascii;
  (** [filepath.Join(a, b)] and [filepath.Dir(p)] *)
  filepath_Join : string -> string -> string;
  filepath_Dir : string -> string;
  (** [%q] of [fmt.Sprintf] on a string *)
  Quote : string -> string;
  (** [parser.ParseFile(fset, filename, nil, 0)]: the error or the file node *)
  ParseFile : string -> string + Node;
  (** [os.ReadFile(name)] on the files that exist before the run *)
  ReadFile : string -> string + string;
  (** [os.CreateTemp(os.TempDir(), "typescriptify_*.go")]: the error or the
      name of the file created *)
  CreateTemp : string + string;
  (** the error, if any, of writing the rendered text to the temporary file *)
  WriteTemp : string -> string -> option string;
  (** [os.ReadFile] of the temporary file once the text is written *)
  ReadTemp : string -> string -> string + string;
  (** the order in which [range] iterates over the alias map *)
  RangeOrder : gmap string nat -> list (string * nat);
  (** [exec.Command("go", "run", name).CombinedOutput()] on the file and
      its text: the combined output and the error, if any *)
  GoRun : string -> string -> string * option string
}.

(** The command line after [flag.Parse()]. *)
Record Flags : Type := mkFlags {
  flag_package : string;
  flag_target : string;
  flag_extra_imports : string;
  flag_extra_commands : string;
  flag_backup : string;
  flag_interface : bool;
  flag_import : list string;
  flag_verbose : bool;
  flag_Args : list string
}.

(** [type Params struct], the data of the template. *)
Record Params : Type := mkParams {
  ModelsPackage : string;
  TargetFile : string;
  Structs : list string;
  InitParams : gmap string string;
  CustomImports : list string;
  Interface : bool;
  Verbose : bool;
  ExtraImports : string;
  ExtraCommands : string;
  Models : string
}.

(** [GetGolangFileStructs]: parse the file, walk it with a fresh visitor. *)
Definition GetGolangFileStructs (h : Host) (filename : string)
    : outcome (list string) :=
  match ParseFile h filename with
  | inl err => Error err
  | inr f => v ← Walk f (mkAVisitor "" []); Value (structs v)
  end.

(** ** The alias map *)

(** [n, exist := paths[path]; if !exist { paths[path] = len(paths); n = paths[path] }] *)
Definition resolve (paths : gmap string nat) (path : string)
    : nat * gmap string nat :=
  match paths !! path with
  | Some n => (n, paths)
  | None =>
      let paths' := <[path := size paths]> paths in
      (default 0 (paths' !! path), paths')
  end.

(** [fmt.Sprintf("m%d.%s", n, s)] *)
Definition qualified (n : nat) (s : string) : string :=
  "m" +:+ pretty n +:+ "." +:+ s.

(** The first loop of [main], over [flag.Args()]: the references and the
    alias map it builds, or the panic of a file that does not parse. *)
Fixpoint collect (h : Host) (pkg : string) (args : list string)
    (structs : list string) (paths : gmap string nat)
    : outcome (list string * gmap string nat) :=
  match args with
  | [] => Value (structs, paths)
  | structOrGoFile :: rest =>
      if negb (HasSuffix structOrGoFile ".go")
      then collect h pkg rest (structs ++ [structOrGoFile]) paths
      else
        let path := filepath_Dir h (filepath_Join h pkg structOrGoFile) in
        let '(n, paths') := resolve paths path in
        match GetGolangFileStructs h structOrGoFile with
        | Value fileStructs =>
            collect h pkg rest (structs ++ map (qualified n) fileStructs) paths'
        | Error err =>
            Panic ("Error loading/parsing golang file " +:+ structOrGoFile
                   +:+ ": " +:+ err)
        | Panic msg => Panic msg
        end
  end.

(** ** The reference filter *)

(** The second loop of [main], lines 132-144. *)
Fixpoint filterStructs (h : Host) (structs structsArr : list string)
    : list string :=
  match structs with
  | [] => structsArr
  | str :: rest =>
      let str := TrimSpace str in
      if HasPrefix str "." then filterStructs h rest structsArr
      else if Contains str (String (Separator h) EmptyString)
      then filterStructs h rest structsArr
      else if (0 <? String.length str)%nat
      then filterStructs h rest (structsArr ++ [str])
      else filterStructs h rest structsArr
  end.

(** ** The template *)

Definition nl : string := String "010" EmptyString.
Definition tab : string := String "009" EmptyString.
Definition dq : string := String "034" EmptyString.

Definition cat (pieces : list string) : string := String.concat "" pieces.

(** [{{ . }}] on a [bool]. *)
Definition show_bool (b : bool) : string := if b then "true" else "false".

(** [range] of [text/template] over a map visits the keys in sorted order. *)
Definition sorted_entries (m : gmap string string) : list (string * string) :=
  merge_sort (fun x y => (x.1 ≤ y.1)%string) (map_to_list m).

(** The text of [TEMPLATE] up to the first range, line by line. *)
Definition template_head (p : Params) : string :=
  cat [ "package main"; nl;
        nl;
        "import ("; nl;
        tab; Models p; nl;
        tab; dq; "github.com/tkrajina/typescriptify-golang-structs/typescriptify"; dq; nl;
        ExtraImports p; nl;
        ")"; nl;
        nl;
        "func main() {"; nl;
        tab; "t := typescriptify.New()"; nl;
        tab; "t.CreateInterface = "; show_bool (Interface p); nl ].

Definition init_line (kv : string * string) : string :=
  cat [ tab; "t."; kv.1; "="; kv.2; nl ].

Definition add_line (s : string) : string :=
  cat [ tab; "t.Add("; s; "{})"; nl ].

Definition import_line (s : string) : string :=
  cat [ tab; "t.AddImport("; dq; s; dq; ")"; nl ].

(** The text of [TEMPLATE] after the last range. *)
Definition template_tail (p : Params) : string :=
  cat [ tab; ExtraCommands p; nl;
        tab; "err := t.ConvertToFile("; dq; TargetFile p; dq; ")"; nl;
        tab; "if err != nil {"; nl;
        tab; tab; "panic(err.Error())"; nl;
        tab; "}"; nl;
        "}"; nl;
        nl;
        "type enum[T any] struct {"; nl;
        tab; "Value  T"; nl;
        tab; "TSName string"; nl;
        "}"; nl;
        nl;
        "func stringEnum[T ~string](xs []T) []enum[T] {"; nl;
        tab; "out := make([]enum[T], 0, len(xs))"; nl;
        tab; "for _, x := range xs {"; nl;
        tab; tab; "out = append(out, enum[T]{"; nl;
        tab; tab; tab; "Value: x,"; nl;
        tab; tab; tab; "TSName: string(x),"; nl;
        tab; tab; "})"; nl;
        tab; "}"; nl;
        tab; "return out"; nl;
        "}" ].

(** [t.Execute(f, p)]: the text the template renders for [p].  Each range
    is followed by the line break that ends the line of its [{{ end }}]. *)
Definition Execute (p : Params) : string :=
  cat [ template_head p;
        cat (map init_line (sorted_entries (InitParams p))); nl;
        cat (map add_line (Structs p)); nl;
        cat (map import_line (CustomImports p)); nl;
        template_tail p ].

(** ** [main] *)

(** What the run does to the world, in order. *)
Inductive Event : Type :=
| Stdout (text : string)
| Stderr (text : string)
| TempCreated (name : string)
| TempWritten (name text : string)
| ChildRun (name : string)
| TempClosed (name : string).

(** How the process ends: [main] returns, [os.Exit(code)], or a panic that
    is not recovered. *)
Inductive Exit : Type :=
| Returned
| Exited (code : nat)
| Panicked (msg : string).

(** The exit status of the process; the Go runtime ends a panicking
    process with status 2. *)
Definition exit_status (e : Exit) : nat :=
  match e with
  | Returned => 0
  | Exited code => code
  | Panicked _ => 2
  end.

(** A step of [main]: the events so far and either a value or the end of
    the process. *)
Definition io (A : Type) : Type := list Event * (A + Exit).

Global Instance io_bind : MBind io := fun A B k m =>
  match m.2 with
  | inl a => (m.1 ++ (k a).1, (k a).2)
  | inr e => (m.1, inr e)
  end.

Definition pure {A : Type} (a : A) : io A := ([], inl a).
Definition emit (e : Event) : io unit := ([e], inl tt).
Definition panic {A : Type} (msg : string) : io A := ([], inr (Panicked msg)).
Definition os_Exit {A : Type} (code : nat) : io A := ([], inr (Exited code)).

(** [func handleErr(err error)] *)
Definition handleErr (err : option string) : io unit :=
  match err with
  | Some e => panic e
  | None => pure tt
  end.

(** A call returning [(value, err)] followed by [handleErr(err)]. *)
Definition checked {A : Type} (r : string + A) : io A :=
  match r with
  | inl err => panic err
  | inr a => pure a
  end.

(** [defer f.Close()]: the file is closed when the rest of [main] returns
    or panics. *)
Definition deferClose {A : Type} (name : string) (m : io A) : io A :=
  (m.1 ++ [TempClosed name], m.2).

(** [if p.X != "" { byt, err := os.ReadFile(p.X); handleErr(err); p.X = string(byt) }] *)
Definition spliced (h : Host) (file : string) : io string :=
  if String.eqb file "" then pure "" else checked (ReadFile h file).

(** [fmt.Sprintf("m%d %q", v, k)] for each entry of the alias map, joined. *)
Definition models_of (h : Host) (paths : gmap string nat) : string :=
  Join (map (fun kv => "m" +:+ pretty kv.2 +:+ " " +:+ Quote h kv.1)
            (RangeOrder h paths))
       (nl +:+ tab).

Definition dashes : string :=
  "----------------------------------------------------------------------------------------------------".

(** The value of [p] when the template is executed: the flags, the
    filtered references (lines 132-146), the one initialisation parameter
    (lines 147-149), the spliced files and the import lines. *)
Definition driver_params (h : Host) (fl : Flags) (structs : list string)
    (paths : gmap string nat) (extraImports extraCommands : string) : Params :=
  let structsArr := filterStructs h structs [] in
  mkParams (flag_package fl) (flag_target fl) structsArr
    {[ "BackupDir" := dq +:+ flag_backup fl +:+ dq ]}
    (flag_import fl) (flag_interface fl) (flag_verbose fl)
    extraImports extraCommands (models_of h paths).

(** The line of the verbose dump (line 173). *)
Definition dump_line (name byts : string) : Event :=
  Stdout (cat [ nl; "Compiling generated code ("; name; "):"; nl;
                byts; nl; dashes; nl ]).

(** Lines 170-174. *)
Definition verbose_dump (h : Host) (fl : Flags) (name text : string) : io unit :=
  if flag_verbose fl
  then
    byts ← checked (ReadTemp h name text);
    emit (dump_line name byts)
  else pure tt.

(** Lines 176-181. *)
Definition execute (h : Host) (name text : string) : io unit :=
  _ ← emit (ChildRun name);
  let output := (GoRun h name text).1 in
  let err := (GoRun h name text).2 in
  match err with
  | Some e =>
      _ ← emit (Stdout (output +:+ nl));
      handleErr err
  | None => pure tt
  end.

(** Lines 167-181: the text is written to the file, shown when asked
    for, and run. *)
Definition persist_and_run (h : Host) (fl : Flags) (name text : string)
    : io unit :=
  _ ← emit (TempWritten name text);
  _ ← handleErr (WriteTemp h name text);
  _ ← verbose_dump h fl name text;
  execute h name text.

Arguments persist_and_run : simpl never.

(** [main] from [os.CreateTemp] on, lines 128-181. *)
Definition generate (h : Host) (fl : Flags) (structs : list string)
    (paths : gmap string nat) : io unit :=
  name ← checked (CreateTemp h);
  _ ← emit (TempCreated name);
  deferClose name (
    extraImports ← spliced h (flag_extra_imports fl);
    extraCommands ← spliced h (flag_extra_commands fl);
    persist_and_run h fl name
      (Execute (driver_params h fl structs paths extraImports extraCommands))).

(** [func main()], after [flag.Parse()]. *)
Definition main_io (h : Host) (fl : Flags) : io unit :=
  match collect h (flag_package fl) (flag_Args fl) [] ∅ with
  | Panic msg | Error msg => panic msg
  | Value (structs, paths) =>
      if (String.length (flag_package fl) =? 0)%nat
      then _ ← emit (Stderr ("No package given" +:+ nl)); os_Exit 1
      else if (String.length (flag_target fl) =? 0)%nat
      then _ ← emit (Stderr ("No target file" +:+ nl)); os_Exit 1
      else generate h fl structs paths
  end.

(** The events of a run and the way it ends. *)
Definition main (h : Host) (fl : Flags) : list Event * Exit :=
  ((main_io h fl).1,
   match (main_io h fl).2 with inl _ => Returned | inr e => e end).

(** ** Definitions the properties are stated with *)

(** What [Visit] sees of a node. *)
Inductive Kind : Type :=
| KIdent (Name : string)
| KStructType
| KOther.

Definition kind_of (n : Node) : Kind :=
  match n with
  | Ident Name => KIdent Name
  | StructType _ => KStructType
  | OtherNode _ => KOther
  end.

(** The nodes of a tree in the order of the source text: a node comes
    before its children, the children in their order. *)
Fixpoint preorder (n : Node) : list Kind :=
  kind_of n ::
  match n with
  | Ident _ => []
  | StructType Fields => preorder Fields
  | OtherNode children =>
      (fix go (l : list Node) : list Kind :=
         match l with
         | [] => []
         | c :: r => preorder c ++ go r
         end) children
  end.

Definition preorder_list : list Node -> list Kind :=
  fix go (l : list Node) : list Kind :=
    match l with
    | [] => []
    | c :: r => preorder c ++ go r
    end.

(** An identifier node with a name, or any other node. *)
Definition named (k : Kind) : bool :=
  match k with KIdent EmptyString => false | _ => true end.

(** The parser gives every identifier a name of at least one byte. *)
Definition well_named (n : Node) : bool := forallb named (preorder n).

(** The test of [Visit] on a name: its first byte, read as a rune, is an
    upper-case letter. *)
Definition exported (Name : string) : bool :=
  match Name with
  | String c _ => IsUpper c
  | EmptyString => false
  end.

(** The effect of one [Visit] on the state of the visitor, when the node
    is not an unnamed identifier. *)
Definition step (v : AVisitor) (k : Kind) : AVisitor :=
  match k with
  | KIdent Name =>
      if exported Name then mkAVisitor Name (structs v)
      else mkAVisitor "" (structs v)
  | KStructType =>
      if exported (structNameCandidate v)
      then mkAVisitor "" (structs v ++ [structNameCandidate v])
      else mkAVisitor "" (structs v)
  | KOther => mkAVisitor "" (structs v)
  end.

(** The matching declarations of a file, in the order of the text: the
    names of the exported identifiers that a struct type follows at once.
    [prev] is the node before the list. *)
Fixpoint declared_after (prev : Kind) (l : list Kind) : list string :=
  match l with
  | [] => []
  | k :: tl =>
      match prev, k with
      | KIdent Name, KStructType =>
          if exported Name then Name :: declared_after k tl
          else declared_after k tl
      | _, _ => declared_after k tl
      end
  end.

Definition declarations (f : Node) : list string :=
  declared_after KOther (preorder f).

(** [utf8.AppendRune] on a code point below U+110000: the UTF-8 encoding,
    one to four bytes. *)
Definition EncodeRune (r : N) : string :=
  let b (n : N) := String (ascii_of_N n) EmptyString in
  (if r <? 128 then b r
   else if r <? 2048 then b (192 + r / 64) +:+ b (128 + r mod 64)
   else if r <? 65536
   then b (224 + r / 4096) +:+ b (128 + (r / 64) mod 64) +:+ b (128 + r mod 64)
   else b (240 + r / 262144) +:+ b (128 + (r / 4096) mod 64)
        +:+ b (128 + (r / 64) mod 64) +:+ b (128 + r mod 64))%N.

(** The bytes of a text given by its code points. *)
Definition utf8 (rs : list N) : string := cat (map EncodeRune rs).


(** [unicode.IsLower] on the code points up to U+00FF: a-z, U+00B5,
    U+00DF-U+00F6 and U+00F8-U+00FF. *)
Definition IsLowerLatin1 (r : N) : bool :=
  ((97 <=? r) && (r <=? 122) || (r =? 181)
   || (223 <=? r) && (r <=? 246) || (248 <=? r) && (r <=? 255))%N.



(** A sequence of resolutions on one alias map: the alias of each
    directory, and the map afterwards. *)
Fixpoint resolve_all (paths : gmap string nat) (dirs : list string)
    : list nat * gmap string nat :=
  match dirs with
  | [] => ([], paths)
  | d :: rest =>
      let '(n, paths') := resolve paths d in
      let '(ns, final) := resolve_all paths' rest in
      (n :: ns, final)
  end.

(** The aliases an invocation gives to the directories it resolves, in
    order, from the empty map of line 96. *)
Definition aliases (dirs : list string) : list nat := (resolve_all ∅ dirs).1.

(** The filter in the words of its description: a candidate is dropped
    when, once trimmed, it begins with a dot, contains the separator or is
    empty; otherwise its trimmed form is kept. *)
Definition keep (h : Host) (candidate : string) : option string :=
  let t := TrimSpace candidate in
  if HasPrefix t "." || Contains t (String (Separator h) EmptyString)
     || String.eqb t ""
  then None else Some t.

(** The directory a positional file is resolved to (line 102). *)
Definition directory (h : Host) (pkg file : string) : string :=
  filepath_Dir h (filepath_Join h pkg file).

(** What the alias map satisfies throughout a run: its aliases are below
    its size, and no alias is given to two directories. *)
Definition alias_inv (m : gmap string nat) : Prop :=
  (forall d n, m !! d = Some n -> n < size m)
  /\ (forall d d' n, m !! d = Some n -> m !! d' = Some n -> d = d').

(** The positional arguments that name source files (line 98). *)
Definition is_go (arg : string) : bool := HasSuffix arg ".go".

(** The directories the run resolves, in the order of the arguments. *)
Definition go_dirs (h : Host) (pkg : string) (args : list string) : list string :=
  map (directory h pkg) (filter (fun a => is_go a = true) args).

(** A positional argument the first loop gets past: a bare name, or a
    file that parses and is walked without a panic. *)
Definition scans (h : Host) (arg : string) : bool :=
  if is_go arg
  then match GetGolangFileStructs h arg with Value _ => true | _ => false end
  else true.

(** The references one positional argument stands for: a bare name stands
    for itself; a file stands for the names declared in it, in the order
    of the file, each qualified with the alias of the directory of the
    file in the alias map [final]. *)
Definition references (h : Host) (pkg : string) (final : gmap string nat)
    (arg : string) : list string :=
  if is_go arg
  then match GetGolangFileStructs h arg with
       | Value names =>
           map (qualified (default 0 (final !! directory h pkg arg))) names
       | _ => []
       end
  else [arg].


(** A name that begins with an ASCII character begins with one of A-Z. *)
Definition ascii_upper_initial (Name : string) : Prop :=
  match Name with
  | String c _ => (byte_val c < 128 -> 65 <= byte_val c <= 90)%N
  | EmptyString => False
  end.

(** ** A sample machine and sample files *)

(** [package models; type Foo struct { x int }] *)
Definition file_a : Node :=
  OtherNode [ Ident "models";
              OtherNode [ OtherNode [ Ident "Foo";
                StructType (OtherNode [ OtherNode [ Ident "x"; Ident "int" ] ]) ] ] ].

(** [package models; type Bar struct{}] *)
Definition file_b : Node :=
  OtherNode [ Ident "models";
              OtherNode [ OtherNode [ Ident "Bar"; StructType (OtherNode []) ] ] ].

(** [package models; type Foo struct { x int }; type bar struct{};
    type Baz struct { Inner struct { y int } }; var v = []Foo{}] *)
Definition file_c : Node :=
  OtherNode [ Ident "models";
              OtherNode [ OtherNode [ Ident "Foo";
                StructType (OtherNode [ OtherNode [ Ident "x"; Ident "int" ] ]) ] ];
              OtherNode [ OtherNode [ Ident "bar"; StructType (OtherNode []) ] ];
              OtherNode [ OtherNode [ Ident "Baz";
                StructType (OtherNode [ OtherNode [ Ident "Inner";
                  StructType (OtherNode [ OtherNode [ Ident "y"; Ident "int" ] ]) ] ]) ] ];
              OtherNode [ OtherNode [ Ident "v";
                OtherNode [ OtherNode [ Ident "Foo" ] ] ] ] ].

(** The bytes of the identifier spelled e-acute, t, a, t: the first
    character, U+00E9, is encoded as the bytes 195 and 169. *)
Definition etat : string := String "195" (String "169" "tat").

(** [package p; type <etat> struct{}] *)
Definition file_etat : Node :=
  OtherNode [ Ident "p";
              OtherNode [ OtherNode [ Ident etat; StructType (OtherNode []) ] ] ].

Fixpoint after_slash (r : string) : string :=
  match r with
  | EmptyString => EmptyString
  | String c r' => if Ascii.eqb c "/" then r' else after_slash r'
  end.

(** A machine with four source files and nothing else; the child process
    it runs succeeds silently. *)
Definition sample_host : Host :=
  {| Separator := "/";
     filepath_Join := fun a b => a +:+ "/" +:+ b;
     filepath_Dir := fun p => String.rev (after_slash (String.rev p));
     Quote := fun s => dq +:+ s +:+ dq;
     ParseFile := fun filename =>
       if String.eqb filename "a.go" then inr file_a
       else if String.eqb filename "b.go" then inr file_b
       else if String.eqb filename "c.go" then inr file_c
       else if String.eqb filename "etat.go" then inr file_etat
       else inl ("open " +:+ filename +:+ ": no such file or directory");
     ReadFile := fun filename =>
       inl ("open " +:+ filename +:+ ": no such file or directory");
     CreateTemp := inr "/tmp/typescriptify_1.go";
     WriteTemp := fun _ _ => None;
     ReadTemp := fun _ text => inr text;
     RangeOrder := map_to_list;
     GoRun := fun _ _ => ("", None) |}.

(** The same machine, where the child process fails. *)
Definition failing_host : Host :=
  {| Separator := Separator sample_host;
     filepath_Join := filepath_Join sample_host;
     filepath_Dir := filepath_Dir sample_host;
     Quote := Quote sample_host;
     ParseFile := ParseFile sample_host;
     ReadFile := ReadFile sample_host;
     CreateTemp := CreateTemp sample_host;
     WriteTemp := WriteTemp sample_host;
     ReadTemp := ReadTemp sample_host;
     RangeOrder := RangeOrder sample_host;
     GoRun := fun _ _ => ("# command-line-arguments: undefined: m0.Foo",
                          Some "exit status 1") |}.

(** [tscriptify -package models -target out.ts <args>] *)
Definition sample_flags (args : list string) : Flags :=
  {| flag_package := "models"; flag_target := "out.ts";
     flag_extra_imports := ""; flag_extra_commands := "";
     flag_backup := ""; flag_interface := false; flag_import := [];
     flag_verbose := false; flag_Args := args |}.

(** [tscriptify <args>], neither flag given. *)
Definition bare_flags (args : list string) : Flags :=
  {| flag_package := ""; flag_target := "";
     flag_extra_imports := ""; flag_extra_commands := "";
     flag_backup := ""; flag_interface := false; flag_import := [];
     flag_verbose := false; flag_Args := args |}.

(** ** Further definitions *)

(** [type arrayImports []string]: [func (i *arrayImports) String() string]
    (lines 19-21). *)
Definition arrayImports_String (i : list string) : string :=
  "// custom imports:" +:+ nl +:+ nl +:+ Join i nl.

(** [func (i *arrayImports) Set(value string) error] (lines 23-26): the
    new value of [*i] and the error returned, which is always [nil]. *)
Definition arrayImports_Set (i : list string) (value : string)
    : list string * option string :=
  (i ++ [value], None).

(** What [flag.Parse] does with the occurrences of [-import], in the
    order of the command line: it calls [Set] on each value and stops at
    the first error. *)
Fixpoint parse_imports (i : list string) (values : list string)
    : outcome (list string) :=
  match values with
  | [] => Value i
  | value :: rest =>
      match arrayImports_Set i value with
      | (i', None) => parse_imports i' rest
      | (_, Some err) => Error err
      end
  end.

(** The message of the panic of [index0]. *)
Definition index_panic : string :=
  "runtime error: index out of range [0] with length 0".

(** The names of the identifiers among some nodes, in their order. *)
Definition ident_names (l : list Kind) : list string :=
  omap (fun k => match k with KIdent Name => Some Name | _ => None end) l.

(** The number of struct types among some nodes. *)
Fixpoint count_structs (l : list Kind) : nat :=
  match l with
  | [] => 0
  | KStructType :: tl => S (count_structs tl)
  | _ :: tl => count_structs tl
  end.

(** The test of [Visit], told from the first character [r] of a name:
    A-Z, or any character of U+0080-U+05BF or U+0600-U+07BF. *)
Definition exported_rune (r : N) : bool :=
  ((65 <=? r) && (r <=? 90) || (128 <=? r) && (r <? 1472)
   || (1536 <=? r) && (r <? 1984))%N.

(** [fmt.Sprintf("m%d %q", v, k)] (line 164) for one entry of the map. *)
Definition model_line (h : Host) (kv : string * nat) : string :=
  "m" +:+ pretty kv.2 +:+ " " +:+ Quote h kv.1.


(** A decimal digit. *)
Definition is_digit (c : ascii) : bool := in_range 48 57 c.

Fixpoint all_digits (s : string) : bool :=
  match s with
  | EmptyString => true
  | String c s' => is_digit c && all_digits s'
  end.

(** The sample machine with another parser. *)
Definition host_parsing (parse : string -> string + Node) : Host :=
  {| Separator := Separator sample_host;
     filepath_Join := filepath_Join sample_host;
     filepath_Dir := filepath_Dir sample_host;
     Quote := Quote sample_host;
     ParseFile := parse;
     ReadFile := ReadFile sample_host;
     CreateTemp := CreateTemp sample_host;
     WriteTemp := WriteTemp sample_host;
     ReadTemp := ReadTemp sample_host;
     RangeOrder := RangeOrder sample_host;
     GoRun := GoRun sample_host |}.

(** A tree with an identifier that has no name, as no parser builds. *)
Definition file_unnamed : Node :=
  OtherNode [ Ident "p"; OtherNode [ OtherNode [ Ident ""; StructType (OtherNode []) ] ] ].

(** The sample machine with another parser and other files to read. *)
Definition host_with (parse : string -> string + Node)
    (read : string -> string + string) : Host :=
  {| Separator := Separator sample_host;
     filepath_Join := filepath_Join sample_host;
     filepath_Dir := filepath_Dir sample_host;
     Quote := Quote sample_host;
     ParseFile := parse;
     ReadFile := read;
     CreateTemp := CreateTemp sample_host;
     WriteTemp := WriteTemp sample_host;
     ReadTemp := ReadTemp sample_host;
     RangeOrder := RangeOrder sample_host;
     GoRun := GoRun sample_host |}.

(** [tscriptify -package models -target out.ts -extra-imports <imports>
    -extra-commands <commands> [-verbose] <args>] *)
Definition full_flags (imports commands : string) (verbose : bool)
    (args : list string) : Flags :=
  {| flag_package := "models"; flag_target := "out.ts";
     flag_extra_imports := imports; flag_extra_commands := commands;
     flag_backup := ""; flag_interface := false; flag_import := [];
     flag_verbose := verbose; flag_Args := args |}.

(** An event is not among the events listed. *)
Ltac absent :=
  intros; unfold dump_line; simpl;
  rewrite ?not_elem_of_app, ?not_elem_of_cons;
  repeat split; try discriminate; try apply not_elem_of_nil.

(** The sample machine with a file [imports.txt] to splice in. *)
Definition host_with_imports : Host :=
  host_with (ParseFile sample_host)
    (fun filename =>
       if String.eqb filename "imports.txt" then inr (dq +:+ "os" +:+ dq)
       else ReadFile sample_host filename).

(** A machine whose parser finds the first sample file under any name
    that ends in [a.go] and the second under any other name. *)
Definition host_two_dirs : Host :=
  host_with (fun filename =>
               if HasSuffix filename "a.go" then inr file_a else inr file_b)
            (ReadFile sample_host).

(** The sample machine when no temporary file can be created. *)
Definition host_no_temp : Host :=
  {| Separator := Separator sample_host;
     filepath_Join := filepath_Join sample_host;
     filepath_Dir := filepath_Dir sample_host;
     Quote := Quote sample_host;
     ParseFile := ParseFile sample_host;
     ReadFile := ReadFile sample_host;
     CreateTemp := inl "open /tmp/typescriptify_1.go: permission denied";
     WriteTemp := WriteTemp sample_host;
     ReadTemp := ReadTemp sample_host;
     RangeOrder := RangeOrder sample_host;
     GoRun := GoRun sample_host |}.

(** The sample machine when the temporary file cannot be written. *)
Definition host_full_disk : Host :=
  {| Separator := Separator sample_host;
     filepath_Join := filepath_Join sample_host;
     filepath_Dir := filepath_Dir sample_host;
     Quote := Quote sample_host;
     ParseFile := ParseFile sample_host;
     ReadFile := ReadFile sample_host;
     CreateTemp := CreateTemp sample_host;
     WriteTemp := fun name _ => Some ("write " +:+ name +:+ ": no space left on device");
     ReadTemp := ReadTemp sample_host;
     RangeOrder := RangeOrder sample_host;
     GoRun := GoRun sample_host |}.

(** * Properties *)

(** ** The scanner *)

Section Scanner.

Implicit Types (v : AVisitor) (n : Node) (k : Kind) (l : list Kind).

Lemma Visit_nil v : Visit v None = Value v.
Proof. reflexivity. Qed.

Lemma Visit_step v n :
  named (kind_of n) = true -> Visit v (Some n) = Value (step v (kind_of n)).
Proof.
  destruct n as [Name|f|ch]; simpl; intros Hn.
  - destruct Name as [|c Name]; [discriminate|]. simpl.
    by destruct (IsUpper c).
  - destruct v as [[|c cand] acc]; simpl; [done|].
    by destruct (IsUpper c).
  - done.
Qed.

Lemma Walk_Other ch v :
  Walk (OtherNode ch) v
  = (v1 ← Visit v (Some (OtherNode ch)); v2 ← walkList ch v1; Visit v2 None).
Proof. reflexivity. Qed.

Lemma preorder_Other ch :
  preorder (OtherNode ch) = KOther :: preorder_list ch.
Proof. reflexivity. Qed.

(** On a tree whose identifiers are named, the walk does not panic and
    is the fold of [step] over the nodes in the order of the text. *)
Lemma Walk_fold n :
  forall v, forallb named (preorder n) = true ->
            Walk n v = Value (fold_left step (preorder n) v).
Proof.
  induction n using Node_rect' with
    (Q := fun ch => forall v, forallb named (preorder_list ch) = true ->
                walkList ch v = Value (fold_left step (preorder_list ch) v)).
  - intros v Hn. simpl in Hn. rewrite andb_true_r in Hn.
    change (Walk (Ident n) v)
      with (v1 ← Visit v (Some (Ident n)); v2 ← Value v1; Visit v2 None).
    by rewrite Visit_step.
  - intros v Hn. simpl in Hn.
    change (Walk (StructType n) v)
      with (v1 ← Visit v (Some (StructType n)); v2 ← Walk n v1; Visit v2 None).
    rewrite Visit_step by done. simpl.
    by rewrite IHn.
  - intros v Hn. rewrite Walk_Other, preorder_Other.
    rewrite preorder_Other in Hn. simpl in Hn.
    rewrite Visit_step by done. simpl.
    by rewrite IHn.
  - done.
  - intros v Hn. simpl in Hn. rewrite forallb_app in Hn.
    apply andb_true_iff in Hn as [H1 H2].
    simpl. rewrite IHn by done. simpl.
    rewrite IHn0 by done. by rewrite fold_left_app.
Qed.

(** A node that is not an exported identifier leaves nothing pending. *)
Lemma declared_after_neutral k l :
  (forall Name, k = KIdent Name -> exported Name = false) ->
  declared_after k l = declared_after KOther l.
Proof.
  intros Hk. destruct l as [|k' tl]; [done|].
  destruct k as [Name| |]; simpl; try done.
  destruct k'; try done. by rewrite (Hk Name).
Qed.

(** The names collected by the fold are the matching declarations. *)
Lemma fold_step_declared l :
  forall v, fold_left step l v
            = mkAVisitor (structNameCandidate (fold_left step l v))
                (structs v ++ declared_after (KIdent (structNameCandidate v)) l).
Proof.
  induction l as [|k tl IH]; intros [cand acc]; simpl.
  - by rewrite app_nil_r.
  - rewrite IH. f_equal. destruct k as [Name| |]; simpl.
    + destruct (exported Name) eqn:He; simpl.
      * by destruct tl.
      * rewrite (declared_after_neutral (KIdent Name)) by congruence.
        by rewrite (declared_after_neutral (KIdent "")) by (by intros ? [= <-]).
    + rewrite (declared_after_neutral KStructType) by done.
      destruct (exported cand); simpl;
        rewrite (declared_after_neutral (KIdent "")) by (by intros ? [= <-]);
        [|done].
      by rewrite <- app_assoc.
    + by rewrite (declared_after_neutral (KIdent "")) by (by intros ? [= <-]).
Qed.

Lemma Walk_declarations f :
  well_named f = true ->
  exists cand, Walk f (mkAVisitor "" []) = Value (mkAVisitor cand (declarations f)).
Proof.
  intros Hn. rewrite Walk_fold by done. rewrite fold_step_declared. simpl.
  rewrite (declared_after_neutral (KIdent "")) by (by intros ? [= <-]).
  by eexists.
Qed.

(** Whatever the tree, a walk that ends only ever adds exported names. *)
Lemma Visit_exported v o v' :
  Visit v o = Value v' ->
  Forall (fun s => exported s = true) (structs v) ->
  Forall (fun s => exported s = true) (structs v').
Proof.
  destruct o as [[Name|f|ch]|]; simpl.
  - destruct Name as [|c Name]; simpl; [done|].
    destruct (IsUpper c); by intros [= <-].
  - destruct v as [[|c cand] acc]; simpl; [by intros [= <-]|].
    destruct (IsUpper c) eqn:Hc; intros [= <-]; simpl; [|done].
    intros Hacc. apply Forall_app. split; [done|]. by constructor.
  - by intros [= <-].
  - by intros [= <-].
Qed.

Lemma Walk_exported n :
  forall v v', Walk n v = Value v' ->
               Forall (fun s => exported s = true) (structs v) ->
               Forall (fun s => exported s = true) (structs v').
Proof.
  induction n using Node_rect' with
    (Q := fun ch => forall v v', walkList ch v = Value v' ->
                Forall (fun s => exported s = true) (structs v) ->
                Forall (fun s => exported s = true) (structs v')).
  - intros v v'.
    change (Walk (Ident n) v)
      with (v1 ← Visit v (Some (Ident n)); v2 ← Value v1; Visit v2 None).
    destruct (Visit v (Some (Ident n))) as [v1| |] eqn:H1; simpl; try done.
    intros [= <-]. by eapply Visit_exported.
  - intros v v'.
    change (Walk (StructType n) v)
      with (v1 ← Visit v (Some (StructType n)); v2 ← Walk n v1; Visit v2 None).
    destruct (Visit v (Some (StructType n))) as [v1| |] eqn:H1; simpl; try done.
    destruct (Walk n v1) as [v2| |] eqn:H2; simpl; try done.
    intros [= <-] Hv. eapply IHn; [done|]. by eapply Visit_exported.
  - intros v v'. rewrite Walk_Other.
    destruct (Visit v (Some (OtherNode ch))) as [v1| |] eqn:H1; simpl; try done.
    destruct (walkList ch v1) as [v2| |] eqn:H2; simpl; try done.
    intros [= <-] Hv. eapply IHn; [done|]. by eapply Visit_exported.
  - intros v v'. simpl. by intros [= <-].
  - intros v v'. simpl.
    destruct (Walk n v) as [w| |] eqn:H1; simpl; try done.
    intros H2 Hv. eapply IHn0; [done|]. by eapply IHn.
Qed.

Lemma scan_exported h filename names :
  GetGolangFileStructs h filename = Value names ->
  Forall (fun s => exported s = true) names.
Proof.
  unfold GetGolangFileStructs.
  destruct (ParseFile h filename) as [err|f]; [done|].
  destruct (Walk f (mkAVisitor "" [])) as [v| |] eqn:Hw; simpl; try done.
  intros [= <-]. eapply Walk_exported; [done|]. by constructor.
Qed.

End Scanner.

(** ** The alias map *)

Section Aliases.

Implicit Types (m : gmap string nat) (d : string) (dirs : list string).

Lemma resolve_known m d n : m !! d = Some n -> resolve m d = (n, m).
Proof. unfold resolve. by intros ->. Qed.

Lemma resolve_fresh m d :
  m !! d = None -> resolve m d = (size m, <[d := size m]> m).
Proof. unfold resolve. intros ->. simpl. by rewrite lookup_insert_eq. Qed.

Lemma alias_inv_empty : alias_inv ∅.
Proof. split; intros *; by rewrite lookup_empty. Qed.

Lemma resolve_inv m d : alias_inv m -> alias_inv (resolve m d).2.
Proof.
  intros [Hlt Hinj]. destruct (m !! d) as [n|] eqn:Hd.
  - by rewrite (resolve_known _ _ _ Hd).
  - rewrite (resolve_fresh _ _ Hd). simpl. split.
    + intros d' n. rewrite map_size_insert_None by done.
      destruct (decide (d = d')) as [<-|Hne].
      * rewrite lookup_insert_eq. intros [= <-]. lia.
      * rewrite lookup_insert_ne by done. intros H%Hlt. lia.
    + intros d1 d2 n.
      destruct (decide (d = d1)) as [<-|H1], (decide (d = d2)) as [<-|H2];
        rewrite ?lookup_insert_eq, ?lookup_insert_ne by done; try done.
      * intros [= <-] H%Hlt. lia.
      * intros H%Hlt [= <-]. lia.
      * apply Hinj.
Qed.

Lemma resolve_lookup m d : (resolve m d).2 !! d = Some (resolve m d).1.
Proof.
  destruct (m !! d) as [n|] eqn:Hd.
  - by rewrite (resolve_known _ _ _ Hd).
  - rewrite (resolve_fresh _ _ Hd). simpl. by rewrite lookup_insert_eq.
Qed.

Lemma resolve_mono m d : m ⊆ (resolve m d).2.
Proof.
  destruct (m !! d) as [n|] eqn:Hd.
  - by rewrite (resolve_known _ _ _ Hd).
  - rewrite (resolve_fresh _ _ Hd). simpl. by apply insert_subseteq.
Qed.

Lemma resolve_dom m d : dom (resolve m d).2 = {[d]} ∪ dom m.
Proof.
  destruct (m !! d) as [n|] eqn:Hd.
  - rewrite (resolve_known _ _ _ Hd). simpl.
    apply (elem_of_dom_2 (D := gset string)) in Hd. set_solver.
  - rewrite (resolve_fresh _ _ Hd). simpl. by rewrite dom_insert_L.
Qed.

Lemma resolve_all_cons m d dirs :
  resolve_all m (d :: dirs)
  = ((resolve m d).1 :: (resolve_all (resolve m d).2 dirs).1,
     (resolve_all (resolve m d).2 dirs).2).
Proof.
  simpl. destruct (resolve m d) as [n m']. simpl.
  by destruct (resolve_all m' dirs).
Qed.

(** Every alias handed out is the entry of its directory in the final
    map, which still satisfies the invariant. *)
Lemma resolve_all_spec dirs :
  forall m, alias_inv m ->
    alias_inv (resolve_all m dirs).2
    /\ m ⊆ (resolve_all m dirs).2
    /\ length (resolve_all m dirs).1 = length dirs
    /\ (forall i d, dirs !! i = Some d ->
         (resolve_all m dirs).1 !! i = (resolve_all m dirs).2 !! d
         /\ is_Some ((resolve_all m dirs).2 !! d)).
Proof.
  induction dirs as [|d0 dirs IH]; intros m Hm.
  - simpl. split_and!; done.
  - rewrite resolve_all_cons. simpl.
    destruct (IH (resolve m d0).2 (resolve_inv m d0 Hm))
      as (Hinv & Hsub & Hlen & Hidx).
    split_and!; try done.
    + etrans; [apply resolve_mono|done].
    + by rewrite Hlen.
    + intros [|i] d Hi; simpl in *.
      * injection Hi as <-. split.
        -- symmetry. eapply lookup_weaken; [apply resolve_lookup|done].
        -- exists (resolve m d0).1.
           eapply lookup_weaken; [apply resolve_lookup|done].
      * by apply Hidx.
Qed.

(** A directory seen for the first time gets the number of directories
    seen before it. *)
Lemma resolve_all_first dirs :
  forall m i d,
    dirs !! i = Some d -> d ∉ take i dirs -> m !! d = None ->
    (resolve_all m dirs).1 !! i
    = Some (size (dom m ∪ list_to_set (take i dirs) : gset string)).
Proof.
  induction dirs as [|d0 dirs IH]; intros m i d Hi Hnew Hm; [done|].
  rewrite resolve_all_cons. destruct i as [|i]; simpl in *.
  - injection Hi as ->. rewrite (resolve_fresh _ _ Hm). simpl.
    rewrite union_empty_r_L. by rewrite size_dom.
  - apply not_elem_of_cons in Hnew as [Hne Hnew].
    rewrite (IH _ i d Hi Hnew).
    + rewrite resolve_dom. do 2 f_equal. set_solver.
    + apply (not_elem_of_dom (D := gset string)). rewrite resolve_dom.
      apply (not_elem_of_dom (D := gset string)) in Hm. set_solver.
Qed.

End Aliases.

(** ** The two loops of [main] *)

Section Loops.

Context (h : Host).

Implicit Types (args structs : list string) (paths : gmap string nat).

Lemma resolve_all_mono dirs : forall paths, paths ⊆ (resolve_all paths dirs).2.
Proof.
  induction dirs as [|d dirs IH]; intros paths; [done|].
  rewrite resolve_all_cons. simpl. etrans; [apply resolve_mono|apply IH].
Qed.

Lemma filterStructs_keep structs :
  forall acc, filterStructs h structs acc = acc ++ omap (keep h) structs.
Proof.
  induction structs as [|str rest IH]; intros acc; simpl.
  - by rewrite app_nil_r.
  - unfold keep at 1.
    destruct (HasPrefix (TrimSpace str) ".") eqn:Hdot; simpl; [apply IH|].
    destruct (Contains (TrimSpace str) (String (Separator h) EmptyString));
      simpl; [apply IH|].
    destruct (TrimSpace str) as [|c t] eqn:Ht; simpl; [apply IH|].
    rewrite IH. by rewrite <- app_assoc.
Qed.

Lemma collect_app pkg pre post :
  forall structs paths,
    collect h pkg (pre ++ post) structs paths
    = match collect h pkg pre structs paths with
      | Value (structs', paths') => collect h pkg post structs' paths'
      | Error e => Error e
      | Panic msg => Panic msg
      end.
Proof.
  induction pre as [|a pre IH]; intros structs paths; simpl; [done|].
  destruct (HasSuffix a ".go"); simpl; [|apply IH].
  destruct (resolve paths _) as [n paths'].
  destruct (GetGolangFileStructs h a); [apply IH|done|done].
Qed.

Lemma go_dirs_file pkg a args :
  is_go a = true ->
  go_dirs h pkg (a :: args) = directory h pkg a :: go_dirs h pkg args.
Proof. intros Ha. unfold go_dirs. by rewrite filter_cons_True. Qed.

Lemma go_dirs_bare pkg a args :
  is_go a = false -> go_dirs h pkg (a :: args) = go_dirs h pkg args.
Proof.
  intros Ha. unfold go_dirs. rewrite filter_cons_False; [done|].
  by rewrite Ha.
Qed.

(** When every argument is scanned, the first loop yields the references
    of the arguments, in their order, and the alias map of their
    directories. *)
Lemma collect_scans pkg args :
  forall structs paths,
    forallb (scans h) args = true ->
    collect h pkg args structs paths
    = Value (structs
             ++ concat (map (references h pkg
                               (resolve_all paths (go_dirs h pkg args)).2) args),
             (resolve_all paths (go_dirs h pkg args)).2).
Proof.
  induction args as [|a args IH]; intros structs paths Hs; simpl.
  - by rewrite app_nil_r.
  - simpl in Hs. apply andb_true_iff in Hs as [Ha Hs].
    unfold scans in Ha. unfold references at 1.
    fold (is_go a). fold (directory h pkg a).
    destruct (is_go a) eqn:Hgo; simpl.
    + rewrite (go_dirs_file _ _ _ Hgo), resolve_all_cons. simpl.
      pose proof (resolve_lookup paths (directory h pkg a)) as Hl.
      destruct (resolve paths (directory h pkg a)) as [n paths']. simpl in *.
      destruct (GetGolangFileStructs h a) as [names| |]; try done.
      rewrite (IH _ _ Hs). rewrite <- app_assoc.
      by rewrite (lookup_weaken _ _ _ _ Hl (resolve_all_mono _ _)).
    + rewrite (go_dirs_bare _ _ _ Hgo). rewrite (IH _ _ Hs).
      by rewrite <- app_assoc.
Qed.

(** The first loop ends without a panic only if every argument is
    scanned. *)
Lemma collect_Value pkg args :
  forall structs paths r,
    collect h pkg args structs paths = Value r -> forallb (scans h) args = true.
Proof.
  induction args as [|a args IH]; intros structs paths r; simpl; [done|].
  unfold scans at 1, is_go.
  destruct (HasSuffix a ".go"); simpl; [|apply IH].
  destruct (resolve paths _) as [n paths'].
  destruct (GetGolangFileStructs h a); [apply IH|done|done].
Qed.

Lemma collect_no_Error pkg args :
  forall structs paths e, collect h pkg args structs paths <> Error e.
Proof.
  induction args as [|a args IH]; intros structs paths e; simpl; [done|].
  destruct (HasSuffix a ".go"); simpl; [|apply IH].
  destruct (resolve paths _) as [n paths'].
  destruct (GetGolangFileStructs h a); [apply IH|done|done].
Qed.

End Loops.

(** ** The run of [main] *)

Section Run.

Context (h : Host) (fl : Flags).

Lemma spliced_cases file :
  (exists text, spliced h file = ([], inl text))
  \/ (exists e, spliced h file = ([], inr (Panicked e))).
Proof.
  unfold spliced. destruct (String.eqb file ""); [left; by eexists|].
  destruct (ReadFile h file) as [e|text]; [right|left]; by eexists.
Qed.

(** The ways lines 167-181 can go: the write fails; the file cannot be
    read back for the dump; the child fails; the child succeeds. *)
Lemma persist_and_run_cases name text :
  (exists e, persist_and_run h fl name text
             = ([TempWritten name text], inr (Panicked e)))
  \/ (exists dump,
        Forall (fun ev => exists byts, ev = dump_line name byts) dump
        /\ ((exists e, (GoRun h name text).2 = Some e
              /\ persist_and_run h fl name text
                 = (TempWritten name text :: dump
                    ++ [ChildRun name; Stdout ((GoRun h name text).1 +:+ nl)],
                    inr (Panicked e)))
            \/ ((GoRun h name text).2 = None
                /\ persist_and_run h fl name text
                   = (TempWritten name text :: dump ++ [ChildRun name],
                      inl tt)))).
Proof.
  unfold persist_and_run, verbose_dump, execute.
  destruct (WriteTemp h name text) as [e|]; simpl; [left; by eexists|].
  destruct (flag_verbose fl); simpl.
  - destruct (ReadTemp h name text) as [e|byts]; simpl; [left; by eexists|].
    right. exists [dump_line name byts]. split.
    { constructor; [by eexists|constructor]. }
    destruct (GoRun h name text) as [out [e|]]; simpl; [left|right]; eauto.
  - right. exists []. split; [constructor|].
    destruct (GoRun h name text) as [out [e|]]; simpl; [left|right]; eauto.
Qed.

Lemma main_collect_panic msg :
  collect h (flag_package fl) (flag_Args fl) [] ∅ = Panic msg ->
  main h fl = ([], Panicked msg).
Proof. unfold main, main_io. by intros ->. Qed.

Lemma length_0_false (s : string) :
  s <> "" -> (String.length s =? 0)%nat = false.
Proof. by destruct s. Qed.

Lemma main_io_checked structs paths :
  collect h (flag_package fl) (flag_Args fl) [] ∅ = Value (structs, paths) ->
  flag_package fl <> "" -> flag_target fl <> "" ->
  main_io h fl = generate h fl structs paths.
Proof.
  intros Hc Hp Ht. unfold main_io.
  by rewrite Hc, (length_0_false _ Hp), (length_0_false _ Ht).
Qed.

Lemma main_flags_missing r :
  collect h (flag_package fl) (flag_Args fl) [] ∅ = Value r ->
  flag_package fl = "" \/ flag_target fl = "" ->
  exists line, main h fl = ([Stderr (line +:+ nl)], Exited 1).
Proof.
  unfold main, main_io. intros -> Hf. destruct r as [structs paths].
  destruct (flag_package fl) as [|c pkg]; simpl; [by eexists|].
  destruct Hf as [Hf| ->]; [done|]. simpl. by eexists.
Qed.

Lemma main_generate structs paths name extraImports extraCommands :
  collect h (flag_package fl) (flag_Args fl) [] ∅ = Value (structs, paths) ->
  flag_package fl <> "" -> flag_target fl <> "" ->
  CreateTemp h = inr name ->
  spliced h (flag_extra_imports fl) = ([], inl extraImports) ->
  spliced h (flag_extra_commands fl) = ([], inl extraCommands) ->
  let text :=
    Execute (driver_params h fl structs paths extraImports extraCommands) in
  main h fl
  = (TempCreated name :: (persist_and_run h fl name text).1 ++ [TempClosed name],
     match (persist_and_run h fl name text).2 with
     | inl _ => Returned
     | inr e => e
     end).
Proof.
  intros Hc Hp Ht Hn Hi He text. unfold main.
  rewrite (main_io_checked _ _ Hc Hp Ht).
  unfold generate. rewrite Hn. simpl. rewrite Hi. simpl. rewrite He. simpl.
  fold text. by destruct (persist_and_run h fl name text) as [evs [[]|e]].
Qed.

(** A run that writes a program has come through the first loop and the
    flag checks, and the program is the template executed on the
    parameters built from the references and the alias map. *)
Lemma main_written name text :
  TempWritten name text ∈ (main h fl).1 ->
  exists structs paths extraImports extraCommands,
    collect h (flag_package fl) (flag_Args fl) [] ∅ = Value (structs, paths)
    /\ flag_package fl <> "" /\ flag_target fl <> ""
    /\ CreateTemp h = inr name
    /\ spliced h (flag_extra_imports fl) = ([], inl extraImports)
    /\ spliced h (flag_extra_commands fl) = ([], inl extraCommands)
    /\ text = Execute (driver_params h fl structs paths extraImports extraCommands).
Proof.
  destruct (collect h (flag_package fl) (flag_Args fl) [] ∅)
    as [[structs paths]|e|msg] eqn:Hc.
  2:{ by apply collect_no_Error in Hc. }
  2:{ rewrite (main_collect_panic _ Hc). by intros ?%elem_of_nil. }
  destruct (decide (flag_package fl = "")) as [Hp|Hp].
  { destruct (main_flags_missing _ Hc (or_introl Hp)) as [line ->].
    by intros ?%list_elem_of_singleton. }
  destruct (decide (flag_target fl = "")) as [Ht|Ht].
  { destruct (main_flags_missing _ Hc (or_intror Ht)) as [line ->].
    by intros ?%list_elem_of_singleton. }
  destruct (CreateTemp h) as [e|name'] eqn:Hn.
  { unfold main. rewrite (main_io_checked _ _ Hc Hp Ht).
    unfold generate. rewrite Hn. simpl. by intros ?%elem_of_nil. }
  destruct (spliced_cases (flag_extra_imports fl)) as [[ei Hi]|[e Hi]].
  2:{ unfold main. rewrite (main_io_checked _ _ Hc Hp Ht).
      unfold generate. rewrite Hn. simpl. rewrite Hi. simpl.
      rewrite !elem_of_cons, elem_of_nil. naive_solver. }
  destruct (spliced_cases (flag_extra_commands fl)) as [[ec He]|[e He]].
  2:{ unfold main. rewrite (main_io_checked _ _ Hc Hp Ht).
      unfold generate. rewrite Hn. simpl. rewrite Hi. simpl.
      rewrite He. simpl.
      rewrite !elem_of_cons, elem_of_nil. naive_solver. }
  rewrite (main_generate _ _ _ _ _ Hc Hp Ht Hn Hi He). cbv zeta.
  unfold fst at 1. intros Hin. exists structs, paths, ei, ec.
  assert (name = name' /\ text
          = Execute (driver_params h fl structs paths ei ec)) as [-> ->];
    [|done].
  apply elem_of_cons in Hin as [?|Hin]; [done|].
  apply elem_of_app in Hin as [Hin|Hin].
  2:{ by apply list_elem_of_singleton in Hin. }
  destruct (persist_and_run_cases name'
              (Execute (driver_params h fl structs paths ei ec)))
    as [[e Hr]|(dump & Hd & [(e & _ & Hr)|[_ Hr]])];
    rewrite Hr in Hin; simpl in Hin.
  - apply list_elem_of_singleton in Hin. by injection Hin.
  - apply elem_of_cons in Hin as [Hin|Hin]; [by injection Hin|].
    apply elem_of_app in Hin as [Hin|Hin].
    + rewrite Forall_forall in Hd. by destruct (Hd _ Hin).
    + rewrite !elem_of_cons, elem_of_nil in Hin. naive_solver.
  - apply elem_of_cons in Hin as [Hin|Hin]; [by injection Hin|].
    apply elem_of_app in Hin as [Hin|Hin].
    + rewrite Forall_forall in Hd. by destruct (Hd _ Hin).
    + rewrite !elem_of_cons, elem_of_nil in Hin. naive_solver.
Qed.

End Run.

(** ** Strings: reversal, concatenation, search for a byte *)

Section Strings.

Implicit Types (s t : string) (c : ascii).

Lemma append_cons c s t : String c s +:+ t = String c (s +:+ t).
Proof. reflexivity. Qed.

Lemma append_nil_l t : "" +:+ t = t.
Proof. reflexivity. Qed.

Lemma append_nil_r s : s +:+ "" = s.
Proof. induction s as [|c s IH]; [done|]. by rewrite append_cons, IH. Qed.

Lemma append_assoc s t u : (s +:+ t) +:+ u = s +:+ (t +:+ u).
Proof. induction s as [|c s IH]; [done|]. by rewrite !append_cons, IH. Qed.

Lemma cat_cons s (l : list string) : cat (s :: l) = s +:+ cat l.
Proof. unfold cat. destruct l; simpl; [by rewrite append_nil_r|done]. Qed.







End Strings.

(** ** UTF-8 and white space *)

Section Utf8.

Implicit Types (r : N) (a b c d : ascii) (s t : string).

Lemma in_range_true lo hi c :
  in_range lo hi c = true <-> (lo <= byte_val c <= hi)%N.
Proof.
  unfold in_range. rewrite andb_true_iff, !N.leb_le. done.
Qed.

Lemma byte_val_of_N n : (n < 256)%N -> byte_val (ascii_of_N n) = n.
Proof. apply N_ascii_embedding. Qed.

















End Utf8.

(** * The specification, claim by claim *)

(** ** The scanner *)

(** C7. For a source file that parses (every identifier of the tree has
    a name), the scanner returns without a panic, and the names it
    returns are the matching declarations of the file in the order of the
    text: the exported identifiers that a struct type follows at once,
    read off the tree node before children, children in their order. *)
Theorem C7_scanner_order (h : Host) (filename : string) (f : Node) :
  ParseFile h filename = inr f ->
  well_named f = true ->
  GetGolangFileStructs h filename = Value (declarations f).
Proof.
  intros Hp Hn. unfold GetGolangFileStructs. rewrite Hp.
  destruct (Walk_declarations f Hn) as [cand ->]. reflexivity.
Qed.

(** The scanner on the third sample file. *)
Lemma C7_scanner_order_sample :
  GetGolangFileStructs sample_host "c.go" = Value ["Foo"; "Baz"; "Inner"].
Proof.
  exact (C7_scanner_order sample_host "c.go" file_c eq_refl eq_refl).
Defined.

(** C6. The scanner does emit a struct type whose name starts with a
    lower-case letter: [Visit] tests the first byte of the name, not its
    first character.  The name made of e-acute, t, a, t starts with the
    lower-case letter U+00E9, whose encoding starts with the byte 195;
    read as a rune, 195 is the upper-case letter U+00C3, and the name is
    returned. *)
Theorem C6_lower_case_initial_emitted :
  ParseFile sample_host "etat.go" = inr file_etat
  /\ preorder file_etat
     = [KOther; KIdent "p"; KOther; KOther; KIdent etat; KStructType; KOther]
  /\ etat = utf8 [233; 116; 97; 116]%N
  /\ IsLowerLatin1 233 = true
  /\ GetGolangFileStructs sample_host "etat.go" = Value [etat].
Proof. repeat split; reflexivity. Qed.

(** ** The alias map *)

(** C3. Within one invocation, the aliases given to a sequence of
    directories satisfy: (1) one alias per resolution; (2) two
    resolutions give the same alias exactly when they resolve the same
    directory, wherever they stand in the sequence; (3) a directory seen
    for the first time gets the number of distinct directories seen
    before it, so the aliases are 0, 1, 2, ... in first-seen order. *)
Theorem C3_alias_resolution (dirs : list string) :
  length (aliases dirs) = length dirs
  /\ (forall i j d d' n n',
        dirs !! i = Some d -> dirs !! j = Some d' ->
        aliases dirs !! i = Some n -> aliases dirs !! j = Some n' ->
        (d = d' <-> n = n'))
  /\ (forall i d,
        dirs !! i = Some d -> d ∉ take i dirs ->
        aliases dirs !! i
        = Some (size (list_to_set (take i dirs) : gset string))).
Proof.
  unfold aliases.
  destruct (resolve_all_spec dirs ∅ alias_inv_empty)
    as ([_ Hinj] & _ & Hlen & Hidx).
  split_and!; [done| |].
  - intros i j d d' n n' Hi Hj Hn Hn'.
    destruct (Hidx _ _ Hi) as [Ei _], (Hidx _ _ Hj) as [Ej _].
    rewrite Ei in Hn. rewrite Ej in Hn'. split.
    + intros <-. congruence.
    + intros <-. by eapply Hinj.
  - intros i d Hi Hnew.
    rewrite (resolve_all_first dirs ∅ i d Hi Hnew (lookup_empty _)).
    by rewrite dom_empty_L, union_empty_l_L.
Qed.

(** ** The reference filter *)

(** C5 as stated fails: a candidate with surrounding white space is
    neither dropped nor passed unchanged; it is passed trimmed. *)
Lemma C5_padded_candidate_is_trimmed :
  filterStructs sample_host [" Foo "] [] = ["Foo"]
  /\ keep sample_host " Foo " = Some "Foo"
  /\ " Foo " <> "Foo".
Proof. repeat split; [reflexivity..|discriminate]. Qed.

(** C5, amended. Whatever its source, the filter drops a candidate
    exactly when its trimmed form begins with a dot, contains the path
    separator or is empty; every other candidate is passed on in its
    trimmed form (so unchanged when it has no surrounding white space),
    in the order of the candidates. *)
Theorem C5_reference_filter (h : Host) (structs : list string) :
  filterStructs h structs [] = omap (keep h) structs
  /\ (forall c,
        keep h c = None
        <-> HasPrefix (TrimSpace c) "." = true
            \/ Contains (TrimSpace c) (String (Separator h) EmptyString) = true
            \/ TrimSpace c = "")
  /\ (forall c t, keep h c = Some t -> t = TrimSpace c)
  /\ (forall c, TrimSpace c = c -> keep h c = None \/ keep h c = Some c).
Proof.
  split_and!.
  - apply filterStructs_keep.
  - intros c. unfold keep.
    destruct (HasPrefix (TrimSpace c) "."); simpl; [naive_solver|].
    destruct (Contains (TrimSpace c) _); simpl; [naive_solver|].
    destruct (TrimSpace c); simpl; naive_solver.
  - intros c t. unfold keep. case_match; naive_solver.
  - intros c Hc. unfold keep. rewrite Hc. case_match; auto.
Qed.

(** ** The order of the checks *)

Lemma collect_parse_failure (h : Host) (pkg : string) pre file rest err :
  forallb (scans h) pre = true ->
  is_go file = true ->
  ParseFile h file = inl err ->
  collect h pkg (pre ++ file :: rest) [] ∅
  = Panic ("Error loading/parsing golang file " +:+ file +:+ ": " +:+ err).
Proof.
  intros Hpre Hgo Hp. rewrite collect_app, (collect_scans _ _ _ _ _ Hpre).
  simpl. unfold is_go in Hgo. rewrite Hgo. simpl.
  destruct (resolve _ _) as [n paths'].
  unfold GetGolangFileStructs. by rewrite Hp.
Qed.

Lemma collect_not_scans (h : Host) (pkg : string) args :
  forallb (scans h) args = false ->
  exists msg, collect h pkg args [] ∅ = Panic msg.
Proof.
  intros Hs. destruct (collect h pkg args [] ∅) as [r|e|msg] eqn:Hc.
  - apply collect_Value in Hc. congruence.
  - by apply collect_no_Error in Hc.
  - by eexists.
Qed.

(** C10. The positional files are parsed before the flags are checked:
    when a positional [.go] file does not parse (the arguments before it
    being scanned without failure), the run ends in a panic that carries
    the name of the file and the error of the parser, whatever the flags,
    and so too when [package] and [target] are both missing; nothing has
    been done by then, and the exit status is that of a panic, not 1. *)
Theorem C10_parse_before_flag_check (h : Host) (fl : Flags)
    (pre : list string) (file : string) (rest : list string) (err : string) :
  flag_Args fl = pre ++ file :: rest ->
  forallb (scans h) pre = true ->
  is_go file = true ->
  ParseFile h file = inl err ->
  main h fl
  = ([], Panicked ("Error loading/parsing golang file " +:+ file +:+ ": " +:+ err))
  /\ exit_status (main h fl).2 = 2.
Proof.
  intros Hargs Hpre Hgo Hp.
  assert (main h fl
          = ([], Panicked ("Error loading/parsing golang file " +:+ file
                           +:+ ": " +:+ err))) as ->; [|done].
  apply main_collect_panic. rewrite Hargs. by apply collect_parse_failure.
Qed.

(** Both flags missing and a file that does not exist. *)
Lemma C10_parse_before_flag_check_sample :
  flag_package (bare_flags ["Foo"; "missing.go"]) = ""
  /\ flag_target (bare_flags ["Foo"; "missing.go"]) = ""
  /\ main sample_host (bare_flags ["Foo"; "missing.go"])
     = ([], Panicked "Error loading/parsing golang file missing.go: open missing.go: no such file or directory")
  /\ exit_status (main sample_host (bare_flags ["Foo"; "missing.go"])).2 = 2.
Proof.
  split; [reflexivity|]. split; [reflexivity|].
  exact (C10_parse_before_flag_check sample_host (bare_flags ["Foo"; "missing.go"])
           ["Foo"] "missing.go" [] "open missing.go: no such file or directory"
           eq_refl eq_refl eq_refl eq_refl).
Defined.

(** C2 as stated fails: with both flags missing and a positional file
    that does not parse, the run ends in a panic, with exit status 2, and
    not with exit status 1. *)
Lemma C2_panic_before_flag_check :
  flag_package (bare_flags ["broken.go"]) = ""
  /\ flag_target (bare_flags ["broken.go"]) = ""
  /\ main sample_host (bare_flags ["broken.go"])
     = ([], Panicked "Error loading/parsing golang file broken.go: open broken.go: no such file or directory")
  /\ exit_status (main sample_host (bare_flags ["broken.go"])).2 = 2
  /\ exit_status (main sample_host (bare_flags ["broken.go"])).2 <> 1.
Proof. repeat split; try reflexivity. discriminate. Qed.

(** C2, amended. When the [package] flag or the [target] flag is empty,
    whatever the other flags and the positional arguments: no temporary
    file is created, no child is run and nothing is printed on standard
    output (the only event there can be is a line on standard error); if
    every positional argument is scanned without failure, the run prints
    one line on standard error and exits with status 1; otherwise it ends
    in the panic of the first loop, with no event at all. *)
Theorem C2_missing_flag (h : Host) (fl : Flags) :
  flag_package fl = "" \/ flag_target fl = "" ->
  (forall ev, ev ∈ (main h fl).1 -> exists line, ev = Stderr line)
  /\ (forallb (scans h) (flag_Args fl) = true ->
      exists line, main h fl = ([Stderr (line +:+ nl)], Exited 1))
  /\ (forallb (scans h) (flag_Args fl) = false ->
      exists msg, main h fl = ([], Panicked msg)).
Proof.
  intros Hf.
  assert (forallb (scans h) (flag_Args fl) = true ->
          exists line, main h fl = ([Stderr (line +:+ nl)], Exited 1)) as Hok.
  { intros Hs. eapply main_flags_missing; [|done].
    by apply collect_scans. }
  assert (forallb (scans h) (flag_Args fl) = false ->
          exists msg, main h fl = ([], Panicked msg)) as Hko.
  { intros Hs.
    destruct (collect_not_scans h (flag_package fl) _ Hs) as [msg Hc].
    exists msg. by apply main_collect_panic. }
  split_and!; [|done..].
  intros ev. destruct (forallb (scans h) (flag_Args fl)) eqn:Hs.
  - destruct (Hok eq_refl) as [line ->]. simpl.
    intros ->%list_elem_of_singleton. by eexists.
  - destruct (Hko eq_refl) as [msg ->]. simpl. by intros ?%elem_of_nil.
Qed.

(** Both flags missing, a file that parses and a bare name. *)
Lemma C2_missing_flag_sample :
  (forall ev, ev ∈ (main sample_host (bare_flags ["a.go"; "Foo"])).1 ->
              exists line, ev = Stderr line)
  /\ (forallb (scans sample_host) ["a.go"; "Foo"] = true ->
      exists line, main sample_host (bare_flags ["a.go"; "Foo"])
                   = ([Stderr (line +:+ nl)], Exited 1))
  /\ (forallb (scans sample_host) ["a.go"; "Foo"] = false ->
      exists msg, main sample_host (bare_flags ["a.go"; "Foo"])
                  = ([], Panicked msg)).
Proof.
  exact (C2_missing_flag sample_host (bare_flags ["a.go"; "Foo"])
           (or_introl eq_refl)).
Defined.

(** ** The child process *)

(** C8. Whenever the child process is run and fails, its combined
    output is printed on standard output, as it is and followed by a line
    break, right after the child has run; the temporary file is closed
    and the run ends in a panic that carries the error of the child, with
    a non-zero exit status; the child is run once. *)
Theorem C8_child_failure (h : Host) (fl : Flags)
    (name text output err : string) :
  TempWritten name text ∈ (main h fl).1 ->
  ChildRun name ∈ (main h fl).1 ->
  GoRun h name text = (output, Some err) ->
  exists before,
    main h fl
    = (before ++ [ChildRun name; Stdout (output +:+ nl); TempClosed name],
       Panicked err)
    /\ (forall n, ChildRun n ∉ before)
    /\ exit_status (main h fl).2 = 2.
Proof.
  intros Hw Hrun Hgo.
  destruct (main_written h fl name text Hw)
    as (structs & paths & ei & ec & Hc & Hp & Ht & Hn & Hi & He & ->).
  rewrite (main_generate h fl _ _ _ _ _ Hc Hp Ht Hn Hi He) in Hrun |- *.
  cbv zeta in Hrun |- *.
  set (text := Execute (driver_params h fl structs paths ei ec)) in *.
  destruct (persist_and_run_cases h fl name text)
    as [[e Hr]|(dump & Hd & [(e & Herr & Hr)|[Herr Hr]])];
    rewrite Hr in Hrun |- *; simpl in Hrun |- *.
  - rewrite !elem_of_cons, elem_of_nil in Hrun. naive_solver.
  - rewrite Hgo in Herr |- *. simpl in Herr |- *. injection Herr as <-.
    exists (TempCreated name :: TempWritten name text :: dump).
    split_and!; [|  |done].
    + simpl. by rewrite <- !app_assoc.
    + intros n. rewrite !not_elem_of_cons. split_and!; [done..|].
      intros Hin. rewrite Forall_forall in Hd. by destruct (Hd _ Hin).
  - rewrite Hgo in Herr. done.
Qed.

(** The run on the machine whose child process fails. *)
Lemma C8_child_failure_sample :
  exists before,
    main failing_host (sample_flags ["a.go"])
    = (before ++ [ChildRun "/tmp/typescriptify_1.go";
                  Stdout ("# command-line-arguments: undefined: m0.Foo" +:+ nl);
                  TempClosed "/tmp/typescriptify_1.go"],
       Panicked "exit status 1")
    /\ (forall n, ChildRun n ∉ before)
    /\ exit_status (main failing_host (sample_flags ["a.go"])).2 = 2.
Proof.
  apply (C8_child_failure failing_host (sample_flags ["a.go"])
           "/tmp/typescriptify_1.go"
           (Execute (driver_params failing_host (sample_flags ["a.go"])
                       ["m0.Foo"] {[ "models" := 0 ]} "" ""))).
  - vm_compute. apply list_elem_of_further, list_elem_of_here.
  - vm_compute. do 2 apply list_elem_of_further. apply list_elem_of_here.
  - reflexivity.
Defined.

(** ** The references in the program *)

(** What a written program was made from: every argument was scanned,
    and the references are those of the arguments, in their order,
    filtered. *)
Lemma main_written_references (h : Host) (fl : Flags) (name text : string) :
  TempWritten name text ∈ (main h fl).1 ->
  exists extraImports extraCommands,
    forallb (scans h) (flag_Args fl) = true
    /\ text
       = Execute
           (driver_params h fl
              (concat (map (references h (flag_package fl)
                              (resolve_all ∅ (go_dirs h (flag_package fl)
                                                (flag_Args fl))).2)
                           (flag_Args fl)))
              (resolve_all ∅ (go_dirs h (flag_package fl) (flag_Args fl))).2
              extraImports extraCommands).
Proof.
  intros Hw.
  destruct (main_written h fl name text Hw)
    as (structs & paths & ei & ec & Hc & _ & _ & _ & _ & _ & ->).
  pose proof (collect_Value _ _ _ _ _ _ Hc) as Hs.
  rewrite (collect_scans _ _ _ _ _ Hs) in Hc. simpl in Hc.
  injection Hc as <- <-. by exists ei, ec.
Qed.

(** C9. In a program that is written, the references stand in the order
    of the positional arguments: the program is the template executed on
    parameters whose [Structs] are the survivors of the filter, in their
    order, among the concatenation, argument by argument, of the
    references each argument stands for (a bare name for itself, a file
    for its declarations in the order of the file, each qualified with
    the alias of its directory); the register statements of the text are
    one line per element of [Structs], in that order. *)
Theorem C9_reference_order (h : Host) (fl : Flags) (name text : string) :
  TempWritten name text ∈ (main h fl).1 ->
  exists (p : Params) (final : gmap string nat),
    text = cat [ template_head p;
                 cat (map init_line (sorted_entries (InitParams p))); nl;
                 cat (map add_line (Structs p)); nl;
                 cat (map import_line (CustomImports p)); nl;
                 template_tail p ]
    /\ final = (resolve_all ∅ (go_dirs h (flag_package fl) (flag_Args fl))).2
    /\ forallb (scans h) (flag_Args fl) = true
    /\ Structs p
       = omap (keep h)
           (concat (map (references h (flag_package fl) final) (flag_Args fl))).
Proof.
  intros Hw.
  destruct (main_written_references h fl name text Hw) as (ei & ec & Hs & ->).
  eexists _, _. split_and!; [reflexivity|reflexivity|done|].
  simpl. apply filterStructs_keep.
Qed.

(** Bare names before, between and after two files. *)
Lemma C9_reference_order_sample :
  exists (p : Params) (final : gmap string nat),
    Execute (driver_params sample_host
               (sample_flags ["Late"; "c.go"; "x/y"; "b.go"; " Early "])
               ["Late"; "m0.Foo"; "m0.Baz"; "m0.Inner"; "x/y"; "m0.Bar"; " Early "]
               {[ "models" := 0 ]} "" "")
    = cat [ template_head p;
            cat (map init_line (sorted_entries (InitParams p))); nl;
            cat (map add_line (Structs p)); nl;
            cat (map import_line (CustomImports p)); nl;
            template_tail p ]
    /\ final = (resolve_all ∅ (go_dirs sample_host "models"
                                 ["Late"; "c.go"; "x/y"; "b.go"; " Early "])).2
    /\ forallb (scans sample_host)
         ["Late"; "c.go"; "x/y"; "b.go"; " Early "] = true
    /\ Structs p
       = omap (keep sample_host)
           (concat (map (references sample_host "models" final)
                        ["Late"; "c.go"; "x/y"; "b.go"; " Early "])).
Proof.
  apply (C9_reference_order sample_host
           (sample_flags ["Late"; "c.go"; "x/y"; "b.go"; " Early "])
           "/tmp/typescriptify_1.go").
  vm_compute. apply list_elem_of_further, list_elem_of_here.
Defined.

(** The references of that run, in order; the path and the padding of
    the last name are gone. *)
Example sample_references_in_order :
  omap (keep sample_host)
    (concat (map (references sample_host "models" {[ "models" := 0 ]})
                 ["Late"; "c.go"; "x/y"; "b.go"; " Early "]))
  = ["Late"; "m0.Foo"; "m0.Baz"; "m0.Inner"; "m0.Bar"; "Early"].
Proof. vm_compute. reflexivity. Qed.

Lemma exported_ascii_upper (Name : string) :
  exported Name = true -> ascii_upper_initial Name.
Proof.
  destruct Name as [|c Name]; simpl; [done|]. unfold IsUpper.
  rewrite !orb_true_iff, !in_range_true. lia.
Qed.

(** C1 as stated fails: a bare positional name that starts with a
    lower-case letter reaches the program. *)
Lemma C1_lower_case_bare_name :
  TempWritten "/tmp/typescriptify_1.go"
    (Execute (driver_params sample_host (sample_flags ["foo"]) ["foo"] ∅ "" ""))
  ∈ (main sample_host (sample_flags ["foo"])).1
  /\ Structs (driver_params sample_host (sample_flags ["foo"]) ["foo"] ∅ "" "")
     = ["foo"]
  /\ exported "foo" = false
  /\ IsLowerLatin1 (byte_val "f") = true.
Proof.
  split; [|repeat split; reflexivity].
  vm_compute. apply list_elem_of_further, list_elem_of_here.
Qed.

(** C1, amended. Every reference of a written program comes, trimmed,
    from a positional argument.  A reference that comes from a file is
    [m<n>.<Name>] for a name the scanner returned for that file, and a
    name that begins with an ASCII character begins with one of A-Z.  A
    bare positional name gets no upper-case filter: it reaches the
    program, trimmed, whenever the reference filter keeps it, whatever
    its first letter. *)
Theorem C1_references_of_the_program (h : Host) (fl : Flags)
    (name text : string) :
  TempWritten name text ∈ (main h fl).1 ->
  exists p : Params,
    text = Execute p
    /\ (forall ref, ref ∈ Structs p ->
          (exists arg, arg ∈ flag_Args fl /\ is_go arg = false
                       /\ ref = TrimSpace arg)
          \/ (exists file n names Name,
                file ∈ flag_Args fl /\ is_go file = true
                /\ GetGolangFileStructs h file = Value names
                /\ Name ∈ names /\ ascii_upper_initial Name
                /\ ref = TrimSpace (qualified n Name)))
    /\ (forall arg t, arg ∈ flag_Args fl -> is_go arg = false ->
                      keep h arg = Some t -> t ∈ Structs p).
Proof.
  intros Hw.
  destruct (main_written_references h fl name text Hw) as (ei & ec & Hs & ->).
  eexists. split; [reflexivity|]. simpl. rewrite filterStructs_keep. simpl.
  set (final := (resolve_all ∅ _).2). split.
  - intros ref (x & Hx & Hk)%list_elem_of_omap.
    assert (ref = TrimSpace x) as ->.
    { unfold keep in Hk. case_match; naive_solver. }
    apply list_elem_of_In, in_concat in Hx as (l & Hl & Hx).
    apply in_map_iff in Hl as (arg & <- & Harg).
    apply list_elem_of_In in Harg. unfold references in Hx.
    destruct (is_go arg) eqn:Hgo.
    + right. destruct (GetGolangFileStructs h arg) as [names| |] eqn:Hg;
        try done.
      apply in_map_iff in Hx as (Name & <- & HN).
      apply list_elem_of_In in HN.
      exists arg, (default 0 (final !! directory h (flag_package fl) arg)),
        names, Name.
      split_and!; try done. apply exported_ascii_upper.
      pose proof (scan_exported _ _ _ Hg) as He.
      rewrite Forall_forall in He. by apply He.
    + left. exists arg. destruct Hx as [<-|[]]. done.
  - intros arg t Harg Hgo Hk. apply list_elem_of_omap. exists arg.
    split; [|done]. apply list_elem_of_In, in_concat.
    exists [arg]. split; [|by left].
    apply in_map_iff. exists arg. split; [|by apply list_elem_of_In].
    unfold references. by rewrite Hgo.
Qed.

(** A file and a bare lower-case name. *)
Lemma C1_references_of_the_program_sample :
  exists p : Params,
    Execute (driver_params sample_host (sample_flags ["c.go"; "foo"])
               ["m0.Foo"; "m0.Baz"; "m0.Inner"; "foo"] {[ "models" := 0 ]} "" "")
    = Execute p
    /\ (forall ref, ref ∈ Structs p ->
          (exists arg, arg ∈ ["c.go"; "foo"] /\ is_go arg = false
                       /\ ref = TrimSpace arg)
          \/ (exists file n names Name,
                file ∈ ["c.go"; "foo"] /\ is_go file = true
                /\ GetGolangFileStructs sample_host file = Value names
                /\ Name ∈ names /\ ascii_upper_initial Name
                /\ ref = TrimSpace (qualified n Name)))
    /\ (forall arg t, arg ∈ ["c.go"; "foo"] -> is_go arg = false ->
                      keep sample_host arg = Some t -> t ∈ Structs p).
Proof.
  apply (C1_references_of_the_program sample_host
           (sample_flags ["c.go"; "foo"]) "/tmp/typescriptify_1.go").
  vm_compute. apply list_elem_of_further, list_elem_of_here.
Defined.

(** ** Two files of one directory *)




(** * Further properties of the code *)

(** ** The scanner *)

Section ScannerMore.

Implicit Types (v : AVisitor) (n : Node) (k : Kind) (l : list Kind).

(** An identifier without a name stops the walk with a panic. *)
Lemma Walk_unnamed n :
  forall v, forallb named (preorder n) = false -> Walk n v = Panic index_panic.
Proof.
  induction n using Node_rect' with
    (Q := fun ch => forall v, forallb named (preorder_list ch) = false ->
                walkList ch v = Panic index_panic).
  - intros v Hn. simpl in Hn. rewrite andb_true_r in Hn.
    by destruct n.
  - intros v Hn. simpl in Hn.
    change (Walk (StructType n) v)
      with (v1 ← Visit v (Some (StructType n)); v2 ← Walk n v1; Visit v2 None).
    rewrite Visit_step by done. simpl. by rewrite IHn.
  - intros v Hn. rewrite Walk_Other. rewrite preorder_Other in Hn.
    simpl in Hn. rewrite Visit_step by done. simpl. by rewrite IHn.
  - done.
  - intros v Hn. simpl in Hn. rewrite forallb_app in Hn. simpl.
    destruct (forallb named (preorder n)) eqn:H1.
    + rewrite Walk_fold by done. simpl. by apply IHn0.
    + by rewrite IHn.
Qed.

Lemma declared_after_sublist l :
  forall k, declared_after k l `sublist_of` ident_names (k :: l).
Proof.
  induction l as [|k' tl IH]; intros k; [apply sublist_nil_l|].
  assert (declared_after k' tl `sublist_of` ident_names (k :: k' :: tl)) as Hskip.
  { etrans; [apply IH|]. unfold ident_names. simpl.
    destruct k; [by apply sublist_cons|done..]. }
  destruct k as [Name| |]; simpl; try done.
  destruct k'; try done.
  destruct (exported Name); [|done].
  unfold ident_names. simpl. apply sublist_skip. apply (IH KStructType).
Qed.

Lemma declared_after_count l :
  forall k, length (declared_after k l) <= count_structs l.
Proof.
  induction l as [|k' tl IH]; intros k; [done|].
  pose proof (IH k') as IHk.
  destruct k as [Name| |], k' as [Name'| |]; simpl in *; try done; try lia.
  destruct (exported Name); simpl; lia.
Qed.

Lemma scan_Value h filename f names :
  ParseFile h filename = inr f ->
  GetGolangFileStructs h filename = Value names ->
  well_named f = true /\ names = declarations f.
Proof.
  intros Hp. unfold GetGolangFileStructs. rewrite Hp.
  destruct (well_named f) eqn:Hn.
  - destruct (Walk_declarations f Hn) as [cand ->]. simpl. by intros [= <-].
  - by rewrite Walk_unnamed.
Qed.

End ScannerMore.

(** X1. The scanner invents nothing: for a file that parses, the names
    returned are names of identifiers of the file, in the order of the
    file, each passing the test of [Visit], and there are at most as many
    of them as the file has struct types. *)
Theorem scanner_returns_identifiers (h : Host) (filename : string) (f : Node)
    (names : list string) :
  ParseFile h filename = inr f ->
  GetGolangFileStructs h filename = Value names ->
  names `sublist_of` ident_names (preorder f)
  /\ length names <= count_structs (preorder f)
  /\ Forall (fun Name => exported Name = true) names.
Proof.
  intros Hp Hg. destruct (scan_Value h filename f names Hp Hg) as [_ ->].
  split_and!.
  - apply (declared_after_sublist (preorder f) KOther).
  - apply declared_after_count.
  - eapply scan_exported. by rewrite Hg.
Qed.

(** The third sample file: three names among eight identifiers and
    three struct types. *)
Lemma scanner_returns_identifiers_sample :
  ["Foo"; "Baz"; "Inner"]
    `sublist_of` ident_names (preorder file_c)
  /\ length ["Foo"; "Baz"; "Inner"] <= count_structs (preorder file_c)
  /\ Forall (fun Name => exported Name = true) ["Foo"; "Baz"; "Inner"].
Proof.
  exact (scanner_returns_identifiers sample_host "c.go" file_c
           ["Foo"; "Baz"; "Inner"] eq_refl eq_refl).
Defined.

(** X2. [t.Name[0]] is out of range on an identifier with an empty
    name: for a file that parses, the scanner panics with the run-time
    error of the index exactly when the tree holds such an identifier,
    and otherwise returns a value; it returns no error of its own. *)
Theorem scanner_panics_on_empty_name (h : Host) (filename : string) (f : Node) :
  ParseFile h filename = inr f ->
  (well_named f = false
   <-> GetGolangFileStructs h filename = Panic index_panic)
  /\ (well_named f = true
      <-> exists names, GetGolangFileStructs h filename = Value names)
  /\ (forall err, GetGolangFileStructs h filename <> Error err).
Proof.
  intros Hp. unfold GetGolangFileStructs. rewrite Hp.
  destruct (well_named f) eqn:Hn.
  - destruct (Walk_declarations f Hn) as [cand ->]. simpl.
    split_and!; [split; done|split; eauto|done].
  - rewrite Walk_unnamed by done. simpl.
    split_and!; [done|split; [done|by intros [? ?]]|done].
Qed.

(** A tree with an unnamed identifier. *)
Lemma scanner_panics_on_empty_name_sample :
  (well_named file_unnamed = false
   <-> GetGolangFileStructs (host_parsing (fun _ => inr file_unnamed)) "x.go"
       = Panic index_panic)
  /\ (well_named file_unnamed = true
      <-> exists names,
            GetGolangFileStructs (host_parsing (fun _ => inr file_unnamed)) "x.go"
            = Value names)
  /\ (forall err,
        GetGolangFileStructs (host_parsing (fun _ => inr file_unnamed)) "x.go"
        <> Error err).
Proof.
  exact (scanner_panics_on_empty_name
           (host_parsing (fun _ => inr file_unnamed)) "x.go" file_unnamed eq_refl).
Defined.

Lemma IsUpper_true (a : ascii) :
  IsUpper a = true
  <-> (65 <= byte_val a <= 90 \/ 192 <= byte_val a <= 214
       \/ 216 <= byte_val a <= 222)%N.
Proof.
  unfold IsUpper. rewrite !orb_true_iff, !in_range_true. tauto.
Qed.

Lemma exported_rune_true (r : N) :
  exported_rune r = true
  <-> (65 <= r <= 90 \/ 128 <= r < 1472 \/ 1536 <= r < 1984)%N.
Proof.
  unfold exported_rune.
  rewrite !orb_true_iff, !andb_true_iff, !N.leb_le, !N.ltb_lt. tauto.
Qed.

(** X3. What the test of [Visit] amounts to, told from the first
    character of a name instead of its first byte: a name passes when it
    begins with one of A-Z or with any character of U+0080-U+05BF or
    U+0600-U+07BF, upper case or not (two-byte encodings whose leading
    byte reads as an upper-case letter); it fails when it begins with any
    other character, so with any character from U+0800 on, upper case or
    not. *)
Theorem exported_by_first_character (r : N) (rest : string) :
  (r < 1114112)%N ->
  exported (EncodeRune r +:+ rest) = exported_rune r.
Proof.
  intros Hr. apply Bool.eq_iff_eq_true. rewrite exported_rune_true.
  unfold EncodeRune.
  pose proof (N.div_mod' r 64) as E1.
  pose proof (N.mod_lt r 64 ltac:(done)) as M1.
  pose proof (N.div_mod' (r / 64) 64) as E2.
  pose proof (N.mod_lt (r / 64) 64 ltac:(done)) as M2.
  rewrite N.Div0.div_div in E2. change (64 * 64)%N with 4096%N in E2.
  pose proof (N.div_mod' (r / 4096) 64) as E3.
  pose proof (N.mod_lt (r / 4096) 64 ltac:(done)) as M3.
  rewrite N.Div0.div_div in E3. change (4096 * 64)%N with 262144%N in E3.
  set (q3 := (r / 262144)%N) in *. set (m3 := ((r / 4096) mod 64)%N) in *.
  set (q2 := (r / 4096)%N) in *. set (m2 := ((r / 64) mod 64)%N) in *.
  set (q1 := (r / 64)%N) in *. set (m1 := (r mod 64)%N) in *.
  clearbody q1 q2 q3 m1 m2 m3.
  destruct (N.ltb_spec r 128) as [H1|H1];
    [|destruct (N.ltb_spec r 2048) as [H2|H2];
      [|destruct (N.ltb_spec r 65536) as [H3|H3]]];
    rewrite !append_cons; cbn [exported];
    rewrite IsUpper_true, byte_val_of_N by lia; lia.
Qed.

(** The letter e-acute, U+00E9, is lower case and passes. *)
Lemma exported_by_first_character_sample :
  exported (EncodeRune 233 +:+ "tat") = exported_rune 233.
Proof. exact (exported_by_first_character 233 "tat" eq_refl). Defined.

(** ** The alias map and the import lines *)

Section AliasesMore.

Implicit Types (m : gmap string nat) (d : string) (dirs : list string).

Lemma resolve_size_fresh m d :
  m !! d = None -> size (resolve m d).2 = S (size m).
Proof.
  intros Hd. rewrite (resolve_fresh _ _ Hd). simpl.
  by apply map_size_insert_None.
Qed.

(** No alias below the size of the map is left out. *)
Lemma resolve_full m d :
  (forall n, n < size m -> exists d', m !! d' = Some n) ->
  forall n, n < size (resolve m d).2 ->
            exists d', (resolve m d).2 !! d' = Some n.
Proof.
  intros Hfull n. destruct (m !! d) as [k|] eqn:Hd.
  - rewrite (resolve_known _ _ _ Hd). apply Hfull.
  - rewrite (resolve_size_fresh _ _ Hd). intros Hn.
    destruct (decide (n = size m)) as [->|Hne].
    + exists d. rewrite (resolve_fresh _ _ Hd). simpl.
      by rewrite lookup_insert_eq.
    + destruct (Hfull n) as [d' Hd']; [lia|]. exists d'.
      eapply lookup_weaken; [done|apply resolve_mono].
Qed.

Lemma resolve_all_full dirs :
  forall m,
    (forall n, n < size m -> exists d', m !! d' = Some n) ->
    forall n, n < size (resolve_all m dirs).2 ->
              exists d', (resolve_all m dirs).2 !! d' = Some n.
Proof.
  induction dirs as [|d dirs IH]; intros m Hfull; [done|].
  rewrite resolve_all_cons. simpl. apply IH. by apply resolve_full.
Qed.

Lemma resolve_all_dom dirs :
  forall m, dom (resolve_all m dirs).2 = dom m ∪ list_to_set dirs.
Proof.
  induction dirs as [|d dirs IH]; intros m.
  - simpl. set_solver.
  - rewrite resolve_all_cons. simpl. rewrite IH, resolve_dom. set_solver.
Qed.

End AliasesMore.

(** X4. The alias map numbers the directories: after any sequence of
    resolutions from the empty map, the map holds exactly the directories
    resolved, as many entries as there are distinct directories, and its
    aliases are exactly the numbers below that count, each given to one
    directory only. *)
Theorem alias_map_numbers_directories (dirs : list string) :
  dom (resolve_all ∅ dirs).2 = list_to_set dirs
  /\ size (resolve_all ∅ dirs).2 = size (list_to_set dirs : gset string)
  /\ (forall n, n < size (resolve_all ∅ dirs).2
                <-> exists d, (resolve_all ∅ dirs).2 !! d = Some n)
  /\ (forall d d' n, (resolve_all ∅ dirs).2 !! d = Some n ->
                     (resolve_all ∅ dirs).2 !! d' = Some n -> d = d').
Proof.
  destruct (resolve_all_spec dirs ∅ alias_inv_empty) as ([Hlt Hinj] & _).
  assert (dom (resolve_all ∅ dirs).2 = list_to_set dirs) as Hdom.
  { rewrite resolve_all_dom, dom_empty_L. set_solver. }
  split_and!; [done| | |done].
  - by rewrite <- Hdom, size_dom.
  - intros n. split.
    + apply resolve_all_full. intros k. rewrite map_size_empty. lia.
    + intros [d Hd]. by eapply Hlt.
Qed.

Lemma alias_map_facts (dirs : list string) :
  dom (resolve_all ∅ dirs).2 = list_to_set dirs
  /\ size (resolve_all ∅ dirs).2 = size (list_to_set dirs : gset string).
Proof.
  assert (dom (resolve_all ∅ dirs).2 = list_to_set dirs) as Hdom.
  { rewrite resolve_all_dom, dom_empty_L. set_solver. }
  split; [done|]. by rewrite <- Hdom, size_dom.
Qed.

Lemma elem_of_go_dirs (h : Host) (pkg : string) (args : list string) (d : string) :
  d ∈ go_dirs h pkg args
  <-> exists file, file ∈ args /\ is_go file = true /\ d = directory h pkg file.
Proof.
  unfold go_dirs. rewrite list_elem_of_In, in_map_iff. split.
  - intros (file & <- & Hin). apply list_elem_of_In in Hin.
    apply list_elem_of_filter in Hin as [Hgo Hin]. by exists file.
  - intros (file & Hin & Hgo & ->). exists file. split; [done|].
    apply list_elem_of_In, list_elem_of_filter. done.
Qed.

Lemma models_of_lines (h : Host) (paths : gmap string nat) :
  models_of h paths = Join (map (model_line h) (RangeOrder h paths)) (nl +:+ tab).
Proof. reflexivity. Qed.

(** X5. The import lines of a written program: the import block has one
    line [m<n> "<directory>"] per entry of the alias map, that is one per
    distinct directory of the positional [.go] files, whether or not the
    file declares any type; and every reference that comes from a file is
    qualified with the alias of the import line of the directory of that
    file. *)
Theorem program_imports_each_directory_once (h : Host) (fl : Flags)
    (name text : string) :
  (forall m, RangeOrder h m ≡ₚ map_to_list m) ->
  TempWritten name text ∈ (main h fl).1 ->
  exists (p : Params) (final : gmap string nat) (lines : list (string * nat)),
    text = Execute p
    /\ Models p = Join (map (model_line h) lines) (nl +:+ tab)
    /\ lines ≡ₚ map_to_list final
    /\ NoDup (lines.*1)
    /\ length lines
       = size (list_to_set (go_dirs h (flag_package fl) (flag_Args fl))
               : gset string)
    /\ Structs p
       = omap (keep h)
           (concat (map (references h (flag_package fl) final) (flag_Args fl)))
    /\ (forall file, file ∈ flag_Args fl -> is_go file = true ->
          exists n names,
            (directory h (flag_package fl) file, n) ∈ lines
            /\ GetGolangFileStructs h file = Value names
            /\ references h (flag_package fl) final file
               = map (qualified n) names).
Proof.
  intros Hperm Hw.
  destruct (main_written_references h fl name text Hw) as (ei & ec & Hs & ->).
  set (final := (resolve_all ∅ (go_dirs h (flag_package fl) (flag_Args fl))).2).
  destruct (alias_map_facts (go_dirs h (flag_package fl) (flag_Args fl)))
    as (Hdom & Hsize).
  fold final in Hdom, Hsize.
  exists (driver_params h fl
            (concat (map (references h (flag_package fl) final) (flag_Args fl)))
            final ei ec), final, (RangeOrder h final).
  split_and!; try done.
  - rewrite Hperm. apply NoDup_fst_map_to_list.
  - rewrite Hperm, length_map_to_list. done.
  - simpl. apply filterStructs_keep.
  - intros file Hin Hgo.
    assert (directory h (flag_package fl) file ∈ dom final) as Hd.
    { rewrite Hdom, elem_of_list_to_set. apply elem_of_go_dirs. eauto. }
    apply elem_of_dom in Hd as [n Hn].
    rewrite forallb_forall in Hs.
    pose proof (Hs file (proj1 (list_elem_of_In _ _) Hin)) as Hscan.
    unfold scans in Hscan. rewrite Hgo in Hscan.
    destruct (GetGolangFileStructs h file) as [names| |] eqn:Hg; try done.
    exists n, names. split_and!; [|done|].
    + rewrite Hperm. by apply elem_of_map_to_list.
    + unfold references. by rewrite Hgo, Hg, Hn.
Qed.

(** Three files in two directories. *)
Lemma program_imports_each_directory_once_sample :
  exists (p : Params) (final : gmap string nat) (lines : list (string * nat)),
    Execute (driver_params host_two_dirs
               (sample_flags ["a.go"; "sub/b.go"; "sub/a.go"])
               ["m0.Foo"; "m1.Bar"; "m1.Foo"]
               {[ "models" := 0; "models/sub" := 1 ]} "" "")
    = Execute p
    /\ Models p = Join (map (model_line host_two_dirs) lines) (nl +:+ tab)
    /\ lines ≡ₚ map_to_list final
    /\ NoDup (lines.*1)
    /\ length lines
       = size (list_to_set (go_dirs host_two_dirs "models"
                              ["a.go"; "sub/b.go"; "sub/a.go"])
               : gset string)
    /\ Structs p
       = omap (keep host_two_dirs)
           (concat (map (references host_two_dirs "models" final)
                        ["a.go"; "sub/b.go"; "sub/a.go"]))
    /\ (forall file, file ∈ ["a.go"; "sub/b.go"; "sub/a.go"] ->
          is_go file = true ->
          exists n names,
            (directory host_two_dirs "models" file, n) ∈ lines
            /\ GetGolangFileStructs host_two_dirs file = Value names
            /\ references host_two_dirs "models" final file
               = map (qualified n) names).
Proof.
  apply (program_imports_each_directory_once host_two_dirs
           (sample_flags ["a.go"; "sub/b.go"; "sub/a.go"])
           "/tmp/typescriptify_1.go").
  - intros m. reflexivity.
  - vm_compute. apply list_elem_of_further, list_elem_of_here.
Defined.


(** ** The run after the flag checks *)

Section RunMore.

Context (h : Host) (fl : Flags).

(** Lines 167-181 in full: what is done depends on the write, on the
    read-back in verbose mode, and on the child. *)
Lemma persist_and_run_detail name text :
  (exists e, WriteTemp h name text = Some e
             /\ persist_and_run h fl name text
                = ([TempWritten name text], inr (Panicked e)))
  \/ (exists e, WriteTemp h name text = None /\ flag_verbose fl = true
                /\ ReadTemp h name text = inl e
                /\ persist_and_run h fl name text
                   = ([TempWritten name text], inr (Panicked e)))
  \/ (exists dump,
        WriteTemp h name text = None
        /\ ((flag_verbose fl = false /\ dump = [])
            \/ (flag_verbose fl = true
                /\ exists byts, ReadTemp h name text = inr byts
                                /\ dump = [dump_line name byts]))
        /\ ((exists e, (GoRun h name text).2 = Some e
              /\ persist_and_run h fl name text
                 = (TempWritten name text :: dump
                    ++ [ChildRun name; Stdout ((GoRun h name text).1 +:+ nl)],
                    inr (Panicked e)))
            \/ ((GoRun h name text).2 = None
                /\ persist_and_run h fl name text
                   = (TempWritten name text :: dump ++ [ChildRun name],
                      inl tt)))).
Proof.
  unfold persist_and_run, verbose_dump, execute.
  destruct (WriteTemp h name text) as [e|]; simpl; [left; by eexists|].
  right. destruct (flag_verbose fl); simpl.
  - destruct (ReadTemp h name text) as [e|byts]; simpl; [left; by eexists|].
    right. exists [dump_line name byts]. split; [done|].
    split; [right; eauto|].
    destruct (GoRun h name text) as [out [e|]]; simpl; [left|right]; eauto.
  - right. exists []. split; [done|]. split; [by left|].
    destruct (GoRun h name text) as [out [e|]]; simpl; [left|right]; eauto.
Qed.

(** The four ways a run can go. *)
Lemma main_shapes :
  (exists msg, main h fl = ([], Panicked msg))
  \/ (exists line, main h fl = ([Stderr (line +:+ nl)], Exited 1))
  \/ (exists name e,
        CreateTemp h = inr name
        /\ main h fl = ([TempCreated name; TempClosed name], Panicked e))
  \/ (exists name text,
        CreateTemp h = inr name
        /\ main h fl
           = (TempCreated name
              :: (persist_and_run h fl name text).1 ++ [TempClosed name],
              match (persist_and_run h fl name text).2 with
              | inl _ => Returned
              | inr e => e
              end)).
Proof.
  destruct (collect h (flag_package fl) (flag_Args fl) [] ∅)
    as [[structs paths]|e|msg] eqn:Hc.
  2:{ by apply collect_no_Error in Hc. }
  2:{ left. exists msg. by apply main_collect_panic. }
  destruct (decide (flag_package fl = "")) as [Hp|Hp].
  { right; left. eapply main_flags_missing; eauto. }
  destruct (decide (flag_target fl = "")) as [Ht|Ht].
  { right; left. eapply main_flags_missing; eauto. }
  destruct (CreateTemp h) as [e|name] eqn:Hn.
  { left. exists e. unfold main. rewrite (main_io_checked _ _ _ _ Hc Hp Ht).
    unfold generate. by rewrite Hn. }
  destruct (spliced_cases h (flag_extra_imports fl)) as [[ei Hi]|[e Hi]].
  2:{ right; right; left. exists name, e. split; [done|]. unfold main.
      rewrite (main_io_checked _ _ _ _ Hc Hp Ht).
      unfold generate. rewrite Hn. simpl. by rewrite Hi. }
  destruct (spliced_cases h (flag_extra_commands fl)) as [[ec He]|[e He]].
  2:{ right; right; left. exists name, e. split; [done|]. unfold main.
      rewrite (main_io_checked _ _ _ _ Hc Hp Ht).
      unfold generate. rewrite Hn. simpl. rewrite Hi. simpl. by rewrite He. }
  right; right; right. eexists name, _. split; [done|].
  apply (main_generate h fl _ _ _ _ _ Hc Hp Ht Hn Hi He).
Qed.

End RunMore.

(** X6. The temporary file is closed on every path that created it and
    on no other: either the run neither creates nor closes a file, or it
    creates the file [os.CreateTemp] names as its first event, closes it
    as its last event, and neither creates nor closes a file in between. *)
Theorem temp_file_closed_on_every_path (h : Host) (fl : Flags) :
  ((forall n, TempCreated n ∉ (main h fl).1)
   /\ (forall n, TempClosed n ∉ (main h fl).1))
  \/ (exists name body,
        CreateTemp h = inr name
        /\ (main h fl).1 = TempCreated name :: body ++ [TempClosed name]
        /\ (forall n, TempCreated n ∉ body)
        /\ (forall n, TempClosed n ∉ body)).
Proof.
  destruct (main_shapes h fl)
    as [[msg ->]|[[line ->]|[(name & e & Hn & ->)|(name & text & Hn & ->)]]].
  - left. split; absent.
  - left. split; absent.
  - right. exists name, []. split_and!; try done; absent.
  - right. exists name, (persist_and_run h fl name text).1.
    split_and!; try done;
      destruct (persist_and_run_detail h fl name text)
        as [(e & _ & ->)|[(e & _ & _ & _ & ->)
           |(dump & _ & [[_ ->]|(_ & byts & _ & ->)] & [(e & _ & ->)|[_ ->]])]];
      absent.
Qed.

(** X7. The child process is run at most once, and only on a program
    that was written without error and, in verbose mode, read back
    without error: if the child is run, the events before it hold the
    creation and the write of the file it is run on and no run of a
    child, and the events after it hold no run of a child. *)
Theorem child_runs_once_on_the_written_program (h : Host) (fl : Flags)
    (name : string) :
  ChildRun name ∈ (main h fl).1 ->
  exists text before after,
    (main h fl).1 = before ++ ChildRun name :: after
    /\ CreateTemp h = inr name
    /\ TempCreated name ∈ before
    /\ TempWritten name text ∈ before
    /\ WriteTemp h name text = None
    /\ (flag_verbose fl = true -> exists byts, ReadTemp h name text = inr byts)
    /\ (forall n, ChildRun n ∉ before)
    /\ (forall n, ChildRun n ∉ after).
Proof.
  destruct (main_shapes h fl)
    as [[msg ->]|[[line ->]|[(name' & e & Hn & ->)|(name' & text & Hn & ->)]]].
  - simpl. by rewrite elem_of_nil.
  - simpl. by rewrite list_elem_of_singleton.
  - simpl. rewrite !elem_of_cons, elem_of_nil. naive_solver.
  - unfold fst at 1.
    destruct (persist_and_run_detail h fl name' text)
      as [(e & _ & ->)|[(e & _ & _ & _ & ->)
         |(dump & Hw & Hd & Hr)]].
    + simpl. rewrite !elem_of_cons, elem_of_nil. naive_solver.
    + simpl. rewrite !elem_of_cons, elem_of_nil. naive_solver.
    + assert (forall n, ChildRun n ∉ TempCreated name' :: TempWritten name' text :: dump)
        as Hbefore.
      { destruct Hd as [[_ ->]|(_ & byts & _ & ->)]; absent. }
      assert (flag_verbose fl = true -> exists byts, ReadTemp h name' text = inr byts)
        as Hread.
      { destruct Hd as [[Hv _]|(_ & byts & Hb & _)]; [congruence|eauto]. }
      assert (forall after,
                (forall n, ChildRun n ∉ after) ->
                ChildRun name
                ∈ TempCreated name'
                  :: (TempWritten name' text :: dump ++ ChildRun name' :: after)
                     ++ [TempClosed name'] ->
                name = name') as Hname.
      { intros after Hafter Hin.
        rewrite elem_of_cons, elem_of_app, elem_of_cons, elem_of_app,
          elem_of_cons, list_elem_of_singleton in Hin.
        destruct Hin as [?|[[?|[Hin|[Hin|Hin]]]|?]]; try done.
        - destruct (Hbefore name). by do 2 apply list_elem_of_further.
        - by injection Hin.
        - by destruct (Hafter name). }
      destruct Hr as [(e & _ & ->)|[_ ->]]; simpl; intros Hin.
      * apply (Hname [Stdout ((GoRun h name' text).1 +:+ nl)]) in Hin as ->;
          [|absent].
        exists text, (TempCreated name' :: TempWritten name' text :: dump),
          [Stdout ((GoRun h name' text).1 +:+ nl); TempClosed name'].
        split_and!; try done.
        -- simpl. by rewrite <- !app_assoc.
        -- apply list_elem_of_here.
        -- apply list_elem_of_further, list_elem_of_here.
        -- absent.
      * apply (Hname []) in Hin as ->; [|absent].
        exists text, (TempCreated name' :: TempWritten name' text :: dump),
          [TempClosed name'].
        split_and!; try done.
        -- simpl. by rewrite <- !app_assoc.
        -- apply list_elem_of_here.
        -- apply list_elem_of_further, list_elem_of_here.
        -- absent.
Qed.

(** The run with one file on the sample machine. *)
Lemma child_runs_once_on_the_written_program_sample :
  exists text before after,
    (main sample_host (sample_flags ["a.go"])).1
    = before ++ ChildRun "/tmp/typescriptify_1.go" :: after
    /\ CreateTemp sample_host = inr "/tmp/typescriptify_1.go"
    /\ TempCreated "/tmp/typescriptify_1.go" ∈ before
    /\ TempWritten "/tmp/typescriptify_1.go" text ∈ before
    /\ WriteTemp sample_host "/tmp/typescriptify_1.go" text = None
    /\ (flag_verbose (sample_flags ["a.go"]) = true ->
        exists byts, ReadTemp sample_host "/tmp/typescriptify_1.go" text = inr byts)
    /\ (forall n, ChildRun n ∉ before)
    /\ (forall n, ChildRun n ∉ after).
Proof.
  apply (child_runs_once_on_the_written_program sample_host (sample_flags ["a.go"])).
  vm_compute. do 2 apply list_elem_of_further. apply list_elem_of_here.
Defined.

(** X8. Exit status 0 means the child succeeded: a run whose exit
    status is 0 created the file, wrote the program without error, ran
    the child on it once without error and closed the file, and printed
    nothing but the verbose dump, if any; the output of a child that
    succeeds is not printed. *)
Theorem exit_zero_means_child_succeeded (h : Host) (fl : Flags) :
  exit_status (main h fl).2 = 0 ->
  exists name text dump,
    main h fl
    = (TempCreated name :: TempWritten name text
       :: dump ++ [ChildRun name; TempClosed name],
       Returned)
    /\ WriteTemp h name text = None
    /\ (GoRun h name text).2 = None
    /\ ((flag_verbose fl = false /\ dump = [])
        \/ (flag_verbose fl = true
            /\ exists byts, ReadTemp h name text = inr byts
                            /\ dump = [dump_line name byts])).
Proof.
  destruct (main_shapes h fl)
    as [[msg ->]|[[line ->]|[(name & e & Hn & ->)|(name & text & Hn & ->)]]];
    try done.
  unfold snd at 1.
  destruct (persist_and_run_detail h fl name text)
    as [(e & _ & ->)|[(e & _ & _ & _ & ->)
       |(dump & Hw & Hd & [(e & _ & ->)|[Hgo ->]])]]; try done.
  intros _. exists name, text, dump. split_and!; try done.
  simpl. by rewrite <- !app_assoc.
Qed.

(** The run with one file on the sample machine ends with status 0. *)
Lemma exit_zero_means_child_succeeded_sample :
  exists name text dump,
    main sample_host (sample_flags ["a.go"])
    = (TempCreated name :: TempWritten name text
       :: dump ++ [ChildRun name; TempClosed name],
       Returned)
    /\ WriteTemp sample_host name text = None
    /\ (GoRun sample_host name text).2 = None
    /\ ((flag_verbose (sample_flags ["a.go"]) = false /\ dump = [])
        \/ (flag_verbose (sample_flags ["a.go"]) = true
            /\ exists byts, ReadTemp sample_host name text = inr byts
                            /\ dump = [dump_line name byts])).
Proof.
  apply (exit_zero_means_child_succeeded sample_host (sample_flags ["a.go"])).
  vm_compute. reflexivity.
Defined.




(** X10. The [package] flag is checked before the [target] flag: when
    every positional argument is scanned without failure, a run with an
    empty [package] prints [No package given], whatever [target] is, and
    a run with a [package] and an empty [target] prints [No target file];
    each prints its line on standard error, does nothing else and exits
    with status 1. *)
Theorem package_checked_before_target (h : Host) (fl : Flags) :
  forallb (scans h) (flag_Args fl) = true ->
  (flag_package fl = "" ->
   main h fl = ([Stderr ("No package given" +:+ nl)], Exited 1))
  /\ (flag_package fl <> "" -> flag_target fl = "" ->
      main h fl = ([Stderr ("No target file" +:+ nl)], Exited 1)).
Proof.
  intros Hs. unfold main, main_io.
  rewrite (collect_scans h _ _ _ _ Hs). split.
  - by intros ->.
  - intros Hp ->. by rewrite (length_0_false _ Hp).
Qed.

(** Neither flag given, one file that parses. *)
Lemma package_checked_before_target_sample :
  (flag_package (bare_flags ["a.go"]) = "" ->
   main sample_host (bare_flags ["a.go"])
   = ([Stderr ("No package given" +:+ nl)], Exited 1))
  /\ (flag_package (bare_flags ["a.go"]) <> "" ->
      flag_target (bare_flags ["a.go"]) = "" ->
      main sample_host (bare_flags ["a.go"])
      = ([Stderr ("No target file" +:+ nl)], Exited 1)).
Proof.
  exact (package_checked_before_target sample_host (bare_flags ["a.go"]) eq_refl).
Defined.

(** X11. The temporary file is created before the injection files are
    read: when the flags are given, the arguments are scanned and the
    file is created, a file named by [-extra-imports] or, if that one is
    read or not given, by [-extra-commands] that cannot be read ends the
    run in a panic with the error of the read; the temporary file has
    been created and is closed, nothing was written to it and no child
    was run. *)
Theorem unreadable_injection_file_leaves_empty_temp (h : Host) (fl : Flags)
    (name err : string) :
  forallb (scans h) (flag_Args fl) = true ->
  flag_package fl <> "" -> flag_target fl <> "" ->
  CreateTemp h = inr name ->
  (flag_extra_imports fl <> "" /\ ReadFile h (flag_extra_imports fl) = inl err)
  \/ ((flag_extra_imports fl = ""
       \/ exists text, ReadFile h (flag_extra_imports fl) = inr text)
      /\ flag_extra_commands fl <> ""
      /\ ReadFile h (flag_extra_commands fl) = inl err) ->
  main h fl = ([TempCreated name; TempClosed name], Panicked err).
Proof.
  intros Hs Hp Ht Hn Hread. unfold main.
  rewrite (main_io_checked h fl _ _ (collect_scans h _ _ _ _ Hs) Hp Ht).
  unfold generate. rewrite Hn. simpl. unfold spliced.
  assert (forall s : string, s <> "" -> String.eqb s "" = false) as Hne.
  { intros s. by destruct s. }
  destruct Hread as [[Hi Hr]|(Hi & Hc & Hr)].
  - by rewrite (Hne _ Hi), Hr.
  - destruct Hi as [->|[text Hi]]; simpl.
    + by rewrite (Hne _ Hc), Hr.
    + destruct (String.eqb (flag_extra_imports fl) ""); simpl;
        rewrite ?Hi; simpl; by rewrite (Hne _ Hc), Hr.
Qed.

(** The sample machine has no file [imports.txt]. *)
Lemma unreadable_injection_file_leaves_empty_temp_sample :
  main sample_host (full_flags "imports.txt" "" false ["a.go"])
  = ([TempCreated "/tmp/typescriptify_1.go"; TempClosed "/tmp/typescriptify_1.go"],
     Panicked "open imports.txt: no such file or directory").
Proof.
  apply (unreadable_injection_file_leaves_empty_temp sample_host
           (full_flags "imports.txt" "" false ["a.go"])
           "/tmp/typescriptify_1.go"
           "open imports.txt: no such file or directory");
    [reflexivity|discriminate|discriminate|reflexivity|].
  left. split; [discriminate|reflexivity].
Defined.

(** ** Prefixes and substrings *)

Section Substrings.

Implicit Types (s t sub : string) (c : ascii).

Lemma HasPrefix_cons c s p :
  HasPrefix (String c s) (String c p) = HasPrefix s p.
Proof. unfold HasPrefix. simpl. by rewrite Ascii.eqb_refl. Qed.

Lemma HasPrefix_nil s : HasPrefix s "" = true.
Proof. unfold HasPrefix. by destruct s. Qed.

(** [strings.HasPrefix] holds exactly of the strings that begin with the
    prefix. *)
Lemma HasPrefix_spec sub :
  forall s, HasPrefix s sub = true <-> exists t, s = sub +:+ t.
Proof.
  induction sub as [|c p IH]; intros s.
  - rewrite HasPrefix_nil. split; [by exists s|done].
  - destruct s as [|c' s].
    + split; [done|]. by intros [t Ht].
    + destruct (Ascii.eqb_spec c' c) as [->|Hne].
      * rewrite HasPrefix_cons, IH. split.
        -- intros [t ->]. by exists t.
        -- intros [t Ht]. rewrite append_cons in Ht. injection Ht as ->.
           by exists t.
      * split.
        -- unfold HasPrefix. simpl.
           destruct (Ascii.eqb_spec c' c) as [?|_]; [done|].
           by rewrite andb_false_r.
        -- intros [t Ht]. rewrite append_cons in Ht. by injection Ht.
Qed.

Lemma Contains_cons c s sub :
  Contains s sub = true -> Contains (String c s) sub = true.
Proof. intros Hs. simpl. by rewrite Hs, orb_true_r. Qed.

Lemma Contains_here s sub : HasPrefix s sub = true -> Contains s sub = true.
Proof. intros Hp. destruct s; simpl; by rewrite Hp. Qed.

Lemma Contains_append_r t s sub :
  Contains s sub = true -> Contains (t +:+ s) sub = true.
Proof.
  intros Hs. induction t as [|c t IH]; [done|].
  rewrite append_cons. by apply Contains_cons.
Qed.

Lemma Contains_append_l s t sub :
  Contains s sub = true -> Contains (s +:+ t) sub = true.
Proof.
  assert (forall s, HasPrefix s sub = true -> Contains (s +:+ t) sub = true)
    as Hhere.
  { intros s' [u Hu]%HasPrefix_spec.
    apply Contains_here, HasPrefix_spec. exists (u +:+ t).
    by rewrite <- append_assoc, <- Hu. }
  induction s as [|c s IH]; intros Hs; simpl in Hs.
  - rewrite orb_false_r in Hs. by apply Hhere.
  - apply orb_true_iff in Hs as [Hs|Hs]; [by apply Hhere|].
    rewrite append_cons. by apply Contains_cons, IH.
Qed.

Lemma Contains_refl s : Contains s s = true.
Proof.
  apply Contains_here, HasPrefix_spec. exists "". by rewrite append_nil_r.
Qed.

(** What holds a string that is among the pieces of a text holds in the
    text. *)
Lemma Contains_cat (l : list string) y sub :
  y ∈ l -> Contains y sub = true -> Contains (cat l) sub = true.
Proof.
  intros Hin Hy. induction Hin as [y l|y z l Hin IH]; rewrite cat_cons.
  - by apply Contains_append_l.
  - by apply Contains_append_r, IH.
Qed.

End Substrings.

(** X12. The injection files are spliced in as they are: the text of a
    program that is written contains, unchanged and unescaped, the
    content read from the file named by [-extra-imports] and the content
    read from the file named by [-extra-commands], when these flags are
    given. *)
Theorem injection_files_spliced_verbatim (h : Host) (fl : Flags)
    (name text : string) :
  TempWritten name text ∈ (main h fl).1 ->
  (forall content,
     flag_extra_imports fl <> "" ->
     ReadFile h (flag_extra_imports fl) = inr content ->
     Contains text content = true)
  /\ (forall content,
        flag_extra_commands fl <> "" ->
        ReadFile h (flag_extra_commands fl) = inr content ->
        Contains text content = true).
Proof.
  intros Hw.
  destruct (main_written h fl name text Hw)
    as (structs & paths & ei & ec & _ & _ & _ & _ & Hi & He & ->).
  assert (forall s : string, s <> "" -> String.eqb s "" = false) as Hne.
  { intros s. by destruct s. }
  unfold spliced in Hi, He. split; intros content Hflag Hread.
  - rewrite (Hne _ Hflag), Hread in Hi. injection Hi as <-.
    unfold Execute. eapply Contains_cat; [apply list_elem_of_here|].
    unfold template_head.
    eapply (Contains_cat _ content); [|apply Contains_refl].
    simpl. set_solver.
  - rewrite (Hne _ Hflag), Hread in He. injection He as <-.
    set (p := driver_params h fl structs paths ei content).
    unfold Execute.
    eapply (Contains_cat _ (template_tail p)); [set_solver|].
    unfold template_tail.
    eapply (Contains_cat _ content); [|apply Contains_refl].
    simpl. set_solver.
Qed.

(** A run that splices [imports.txt] into the import block. *)
Lemma injection_files_spliced_verbatim_sample :
  (forall content,
     flag_extra_imports (full_flags "imports.txt" "" false ["a.go"]) <> "" ->
     ReadFile host_with_imports
       (flag_extra_imports (full_flags "imports.txt" "" false ["a.go"]))
     = inr content ->
     Contains
       (Execute (driver_params host_with_imports
                   (full_flags "imports.txt" "" false ["a.go"])
                   ["m0.Foo"] {[ "models" := 0 ]} (dq +:+ "os" +:+ dq) ""))
       content = true)
  /\ (forall content,
        flag_extra_commands (full_flags "imports.txt" "" false ["a.go"]) <> "" ->
        ReadFile host_with_imports
          (flag_extra_commands (full_flags "imports.txt" "" false ["a.go"]))
        = inr content ->
        Contains
          (Execute (driver_params host_with_imports
                      (full_flags "imports.txt" "" false ["a.go"])
                      ["m0.Foo"] {[ "models" := 0 ]} (dq +:+ "os" +:+ dq) ""))
          content = true).
Proof.
  apply (injection_files_spliced_verbatim host_with_imports
           (full_flags "imports.txt" "" false ["a.go"])
           "/tmp/typescriptify_1.go").
  vm_compute. apply list_elem_of_further, list_elem_of_here.
Defined.

(** ** The references *)

(** X13. No reference of a written program is empty, begins with a dot
    or holds a path separator. *)
Theorem references_of_the_program_are_clean (h : Host) (fl : Flags)
    (name text : string) :
  TempWritten name text ∈ (main h fl).1 ->
  exists p : Params,
    text = Execute p
    /\ forall ref, ref ∈ Structs p ->
         ref <> ""
         /\ HasPrefix ref "." = false
         /\ Contains ref (String (Separator h) EmptyString) = false.
Proof.
  intros Hw.
  destruct (main_written h fl name text Hw)
    as (structs & paths & ei & ec & _ & _ & _ & _ & _ & _ & ->).
  eexists. split; [reflexivity|]. simpl. rewrite filterStructs_keep. simpl.
  intros ref (c & _ & Hk)%list_elem_of_omap. unfold keep in Hk.
  destruct (HasPrefix (TrimSpace c) ".") eqn:H1; [done|].
  destruct (Contains (TrimSpace c) _) eqn:H2; [done|].
  destruct (TrimSpace c) as [|a t] eqn:H3; [done|].
  simpl in Hk. injection Hk as <-. done.
Qed.

(** Bare names with a dot in front, a path and nothing but blanks. *)
Lemma references_of_the_program_are_clean_sample :
  exists p : Params,
    Execute (driver_params sample_host
               (sample_flags [".hidden"; "a.go"; "x/y"; "  "; " Kept "])
               [".hidden"; "m0.Foo"; "x/y"; "  "; " Kept "]
               {[ "models" := 0 ]} "" "")
    = Execute p
    /\ forall ref, ref ∈ Structs p ->
         ref <> ""
         /\ HasPrefix ref "." = false
         /\ Contains ref (String (Separator sample_host) EmptyString) = false.
Proof.
  apply (references_of_the_program_are_clean sample_host
           (sample_flags [".hidden"; "a.go"; "x/y"; "  "; " Kept "])
           "/tmp/typescriptify_1.go").
  vm_compute. apply list_elem_of_further, list_elem_of_here.
Defined.

Section Digits.

Implicit Types (s t p : string) (c : ascii).

Lemma pretty_N_char_digit (x : N) : is_digit (pretty_N_char x) = true.
Proof. unfold pretty_N_char. by repeat case_match. Qed.

Lemma pretty_N_go_digits (x : N) :
  forall s, all_digits s = true -> all_digits (pretty_N_go x s) = true.
Proof.
  induction (N.lt_wf_0 x) as [x _ IH]. intros s Hs.
  destruct (decide (x = 0)%N) as [->|Hx].
  - by rewrite pretty_N_go_0.
  - rewrite pretty_N_go_step by lia. apply IH.
    + apply N.div_lt; lia.
    + simpl. by rewrite pretty_N_char_digit, Hs.
Qed.

(** [%d] of a natural number prints decimal digits only. *)
Lemma pretty_digits (n : nat) : all_digits (pretty n) = true.
Proof.
  unfold pretty, pretty_nat, pretty, pretty_N. case_decide; [done|].
  by apply pretty_N_go_digits.
Qed.

(** The digits before the first dot, and what follows it, are determined
    by the whole. *)
Lemma digits_dot_inj p :
  forall p' t t',
    all_digits p = true -> all_digits p' = true ->
    p +:+ "." +:+ t = p' +:+ "." +:+ t' -> p = p' /\ t = t'.
Proof.
  induction p as [|c p IH]; intros [|c' p'] t t' Hp Hp' Heq.
  - rewrite !append_nil_l in Heq. by injection Heq.
  - rewrite append_nil_l, !append_cons in Heq. injection Heq as <- _.
    by simpl in Hp'.
  - rewrite append_nil_l, !append_cons in Heq. injection Heq as -> _.
    by simpl in Hp.
  - rewrite !append_cons in Heq. injection Heq as -> Heq.
    simpl in Hp, Hp'. apply andb_true_iff in Hp as [_ Hp].
    apply andb_true_iff in Hp' as [_ Hp'].
    destruct (IH p' t t' Hp Hp' Heq) as [-> ->]. done.
Qed.

End Digits.

(** X14. A qualified reference determines its alias and its name: two
    references [m<n>.<Name>] are the same text only for the same alias
    and the same name, so types of the same name in two directories get
    two references. *)
Theorem qualified_reference_determines_alias_and_name (n n' : nat)
    (Name Name' : string) :
  qualified n Name = qualified n' Name' -> n = n' /\ Name = Name'.
Proof.
  unfold qualified. rewrite !append_cons, !append_nil_l. intros [= Heq].
  destruct (digits_dot_inj _ _ _ _ (pretty_digits n) (pretty_digits n') Heq)
    as [Hn ->].
  split; [|done]. by apply (inj pretty).
Qed.

(** Alias 12 and the name [Foo]. *)
Lemma qualified_reference_determines_alias_and_name_sample :
  12 = 12 /\ "Foo" = "Foo".
Proof.
  exact (qualified_reference_determines_alias_and_name 12 12 "Foo" "Foo" eq_refl).
Defined.

(** ** The [-import] flag *)

(** X15. The [-import] flag accumulates: [Set] never fails, and after
    [flag.Parse] has called it on the occurrences of the flag, the value
    holds what it held before followed by every occurrence, in the order
    of the command line, repeated values included; [String] then prints
    its heading and the imports, one per line. *)
Theorem import_flag_accumulates (i values : list string) :
  parse_imports i values = Value (i ++ values)
  /\ arrayImports_String (i ++ values)
     = "// custom imports:" +:+ nl +:+ nl +:+ Join (i ++ values) nl.
Proof.
  split; [|reflexivity].
  revert i. induction values as [|v values IH]; intros i; simpl.
  - by rewrite app_nil_r.
  - rewrite IH. by rewrite <- app_assoc.
Qed.

(** ** The scalar flags in the text *)

Lemma Contains_middle (a sub b : string) :
  Contains (a +:+ sub +:+ b) sub = true.
Proof.
  apply Contains_append_r, Contains_here, HasPrefix_spec. by exists b.
Qed.

Lemma sorted_entries_singleton (k v : string) :
  sorted_entries {[ k := v ]} = [(k, v)].
Proof. unfold sorted_entries. by rewrite map_to_list_singleton. Qed.

(** X16. The scalar flags reach the program as they are, unescaped: the
    text of a written program holds the line that sets [BackupDir] to the
    value of [-backup] between double quotes, also when that value is
    empty, the assignment of [true] or [false] to [CreateInterface]
    according to [-interface], and the call of [ConvertToFile] on the
    value of [-target] between double quotes. *)
Theorem scalar_flags_rendered (h : Host) (fl : Flags) (name text : string) :
  TempWritten name text ∈ (main h fl).1 ->
  Contains text
    (tab +:+ "t.BackupDir=" +:+ dq +:+ flag_backup fl +:+ dq +:+ nl) = true
  /\ Contains text
       (tab +:+ "t.CreateInterface = " +:+ show_bool (flag_interface fl) +:+ nl)
     = true
  /\ Contains text
       (tab +:+ "err := t.ConvertToFile(" +:+ dq +:+ flag_target fl +:+ dq
        +:+ ")" +:+ nl) = true.
Proof.
  intros Hw.
  destruct (main_written h fl name text Hw)
    as (structs & paths & ei & ec & _ & _ & _ & _ & _ & _ & ->).
  set (p := driver_params h fl structs paths ei ec).
  unfold Execute. split_and!.
  - eapply (Contains_cat _ (cat (map init_line (sorted_entries (InitParams p)))));
      [set_solver|].
    unfold p, driver_params. cbn [InitParams].
    rewrite sorted_entries_singleton. cbn [map]. unfold init_line. cbn [fst snd].
    rewrite !cat_cons.
    assert (cat [] = "") as -> by reflexivity.
    rewrite !append_nil_r, !append_assoc.
    apply Contains_here, HasPrefix_spec. exists "".
    rewrite ?append_assoc, ?append_nil_r. reflexivity.
  - eapply (Contains_cat _ (template_head p)); [set_solver|].
    unfold template_head. rewrite !cat_cons.
    assert (cat [] = "") as -> by reflexivity.
    do 23 apply Contains_append_r.
    apply Contains_here, HasPrefix_spec. exists "".
    rewrite ?append_assoc, ?append_nil_r. reflexivity.
  - eapply (Contains_cat _ (template_tail p)); [set_solver|].
    unfold template_tail. rewrite !cat_cons.
    do 3 apply Contains_append_r.
    apply Contains_here, HasPrefix_spec. eexists.
    rewrite ?append_assoc. reflexivity.
Qed.

(** A run on the sample machine. *)
Lemma scalar_flags_rendered_sample :
  Contains
    (Execute (driver_params sample_host (sample_flags ["a.go"])
                ["m0.Foo"] {[ "models" := 0 ]} "" ""))
    (tab +:+ "t.BackupDir=" +:+ dq +:+ flag_backup (sample_flags ["a.go"])
     +:+ dq +:+ nl) = true
  /\ Contains
       (Execute (driver_params sample_host (sample_flags ["a.go"])
                   ["m0.Foo"] {[ "models" := 0 ]} "" ""))
       (tab +:+ "t.CreateInterface = "
        +:+ show_bool (flag_interface (sample_flags ["a.go"])) +:+ nl) = true
  /\ Contains
       (Execute (driver_params sample_host (sample_flags ["a.go"])
                   ["m0.Foo"] {[ "models" := 0 ]} "" ""))
       (tab +:+ "err := t.ConvertToFile(" +:+ dq
        +:+ flag_target (sample_flags ["a.go"]) +:+ dq +:+ ")" +:+ nl) = true.
Proof.
  apply (scalar_flags_rendered sample_host (sample_flags ["a.go"])
           "/tmp/typescriptify_1.go").
  vm_compute. apply list_elem_of_further, list_elem_of_here.
Defined.

(** ** Failures around the temporary file *)

(** X17. When the flags are given and the arguments are scanned, a
    temporary file that cannot be created ends the run in a panic with
    the error of [os.CreateTemp]; nothing else has been done. *)
Theorem no_temporary_file_no_run (h : Host) (fl : Flags) (err : string) :
  forallb (scans h) (flag_Args fl) = true ->
  flag_package fl <> "" -> flag_target fl <> "" ->
  CreateTemp h = inl err ->
  main h fl = ([], Panicked err).
Proof.
  intros Hs Hp Ht Hn. unfold main.
  rewrite (main_io_checked h fl _ _ (collect_scans h _ _ _ _ Hs) Hp Ht).
  unfold generate. by rewrite Hn.
Qed.

(** The machine without a temporary directory. *)
Lemma no_temporary_file_no_run_sample :
  main host_no_temp (sample_flags ["a.go"])
  = ([], Panicked "open /tmp/typescriptify_1.go: permission denied").
Proof.
  apply (no_temporary_file_no_run host_no_temp (sample_flags ["a.go"]));
    [reflexivity|discriminate|discriminate|reflexivity].
Defined.

(** X18. A program that cannot be written is not run: when the write of
    the rendered text fails, the run closes the file and ends in a panic
    with the error of the write; no child is run and nothing is printed. *)
Theorem write_failure_stops_the_run (h : Host) (fl : Flags)
    (name text err : string) :
  TempWritten name text ∈ (main h fl).1 ->
  WriteTemp h name text = Some err ->
  main h fl
  = ([TempCreated name; TempWritten name text; TempClosed name], Panicked err).
Proof.
  intros Hw Herr.
  destruct (main_written h fl name text Hw)
    as (structs & paths & ei & ec & Hc & Hp & Ht & Hn & Hi & He & ->).
  rewrite (main_generate h fl _ _ _ _ _ Hc Hp Ht Hn Hi He). cbv zeta.
  unfold persist_and_run. by rewrite Herr.
Qed.

(** The machine with a full disk. *)
Lemma write_failure_stops_the_run_sample :
  main host_full_disk (sample_flags ["a.go"])
  = ([TempCreated "/tmp/typescriptify_1.go";
      TempWritten "/tmp/typescriptify_1.go"
        (Execute (driver_params host_full_disk (sample_flags ["a.go"])
                    ["m0.Foo"] {[ "models" := 0 ]} "" ""));
      TempClosed "/tmp/typescriptify_1.go"],
     Panicked "write /tmp/typescriptify_1.go: no space left on device").
Proof.
  apply (write_failure_stops_the_run host_full_disk (sample_flags ["a.go"])).
  - vm_compute. apply list_elem_of_further, list_elem_of_here.
  - reflexivity.
Defined.
